(** * Cloud-Native RAG: the browser client, the chat page and the retrieval core

    A shallow embedding of the TypeScript client of the repository
    ([frontend/src/lib/api.ts], [frontend/src/app/page.tsx] and the upload
    widget [frontend/src/components/FileUpload.tsx]) together with the parts
    of the Python backend that the design document describes but that are not
    among the sources at hand (the chunker, the vector store and the producer
    of the answer events).

    Conventions of the embedding.
    - A JavaScript string is the [string] of its code units, for the strings
      whose code units are all below 256 (U+0000 to U+00FF): the character of
      code [n] is the code unit [n].  [trim] strips the white space and the
      line terminators of ECMAScript that lie in that range, the no-break
      space U+00A0 among them, and [toLowerCase] maps the capital letters of
      that range.
    - A value produced by [JSON.parse] is a [json]; [undefined] is [None] in
      [js_value].  Numbers are the integers a double holds exactly; [String]
      prints them in decimal digits, as JavaScript does below 10^21
      ([prints_in_digits]).
    - A promise is a computation over an explicit [World]: the state of the
      backend, the log of the requests sent so far and the state of the
      caller that the callbacks update.  It ends [Resolved] or [Rejected].
    - [JSON.parse], [JSON.stringify] and the environment variable
      [NEXT_PUBLIC_API_URL] belong to the platform and are taken as the
      fields of a [Platform].
    - A state of React is a value and [setState(updater)] applies the
      updater to it.  React runs an updater once in a production build; the
      one updater of the sources that changes an object in place, that of
      the streaming callback, is also given on the message objects, with
      the reruns StrictMode makes in a development build.  An updater that
      raises leaves the state as it was: React raises the error again when
      it renders, not where [setState] was called. *)

From Stdlib Require Import ZArith Ascii String List Lia Bool.
From stdpp Require Import base tactics option list strings gmap pretty.

Local Open Scope string_scope.
Local Open Scope list_scope.
Local Open Scope Z_scope.

(* ===================================================================== *)
(** * JavaScript strings *)
(* ===================================================================== *)

Module Js.

Definition LF : ascii := ascii_of_nat 10.

(** [WhiteSpace] and [LineTerminator] of ECMAScript among the code units
    below 256: TAB, LF, VT, FF, CR, SPACE and the no-break space U+00A0.
    (The others, U+FEFF, U+2028, U+2029 and the rest of the class Zs, are
    above that range; U+0085 is not white space for ECMAScript.) *)
Definition is_white_space (c : ascii) : bool :=
  let n := nat_of_ascii c in
  ((n =? 9) || (n =? 10) || (n =? 11) || (n =? 12) || (n =? 13) || (n =? 32)
   || (n =? 160))%nat.

Fixpoint trimStart (s : string) : string :=
  match s with
  | EmptyString => EmptyString
  | String c r => if is_white_space c then trimStart r else s
  end.

Fixpoint trimEnd (s : string) : string :=
  match s with
  | EmptyString => EmptyString
  | String c r =>
      match trimEnd r with
      | EmptyString => if is_white_space c then EmptyString else String c EmptyString
      | r' => String c r'
      end
  end.

(** [s.trim()] *)
Definition trim (s : string) : string := trimEnd (trimStart s).

(** Truthiness of a string: every string but the empty one. *)
Definition truthy_string (s : string) : bool :=
  match s with EmptyString => false | _ => true end.

(** [s.startsWith(p)] *)
Definition startsWith (p s : string) : bool := String.prefix p s.

(** [s.endsWith(p)]: the last [length p] characters of [s] are [p]. *)
Definition endsWith (p s : string) : bool :=
  let n := String.length s in
  let m := String.length p in
  if (m <=? n)%nat then String.eqb (String.substring (n - m) m s) p else false.

(** [s.slice(n)] for a non-negative [n]. *)
Fixpoint slice_from (n : nat) (s : string) : string :=
  match n, s with
  | O, _ => s
  | S n', String _ r => slice_from n' r
  | S _, EmptyString => EmptyString
  end.

(** [s.split(sep)] for a separator of one character: the pieces between
    the separators, so that a text of [k] separators has [k + 1] pieces. *)
Fixpoint split (sep : ascii) (s : string) : list string :=
  match s with
  | EmptyString => [EmptyString]
  | String c r =>
      if Ascii.eqb c sep then EmptyString :: split sep r
      else match split sep r with
           | h :: t => String c h :: t
           | [] => [String c EmptyString]
           end
  end.

(** Whether the character [c] occurs in [s]. *)
Fixpoint contains (c : ascii) (s : string) : bool :=
  match s with
  | EmptyString => false
  | String d r => Ascii.eqb d c || contains c r
  end.

(** The lower case of a code unit below 256: the capital letters are A to
    Z and, in the upper half, U+00C0 to U+00DE without the multiplication
    sign U+00D7; each has its small letter 32 places on. *)
Definition lower_char (c : ascii) : ascii :=
  let n := nat_of_ascii c in
  if ((65 <=? n) && (n <=? 90))%nat then ascii_of_nat (n + 32)
  else if ((192 <=? n) && (n <=? 222) && negb (n =? 215))%nat then ascii_of_nat (n + 32)
  else c.

(** [s.toLowerCase()] *)
Fixpoint toLowerCase (s : string) : string :=
  match s with
  | EmptyString => EmptyString
  | String c r => String (lower_char c) (toLowerCase r)
  end.

(** [a.slice(-n)] on an array: the last [n] elements, all of them when the
    array is shorter (the start index [len - n] is clamped at 0). *)
Definition slice_last {A} (n : nat) (a : list A) : list A :=
  drop (length a - n)%nat a.

End Js.

(* ===================================================================== *)
(** * JSON values and the few operations of JavaScript applied to them *)
(* ===================================================================== *)

#[warnings="-register-all"]
Inductive json : Type :=
| JNull
| JBool (b : bool)
| JNum (n : Z)
| JStr (s : string)
| JArr (items : list json)
| JObj (fields : list (string * json)).

(** A JavaScript value read from parsed JSON: [None] is [undefined]. *)
Definition js_value := option json.

Inductive JsError : Type :=
| Error (message : string)        (* new Error(message) *)
| TypeError (message : string)    (* raised by the platform *)
| SyntaxError (message : string). (* raised by JSON.parse *)

(** [e.message] *)
Definition message_of (e : JsError) : string :=
  match e with Error m | TypeError m | SyntaxError m => m end.

Fixpoint lookup_field (k : string) (fields : list (string * json)) : js_value :=
  match fields with
  | [] => None
  | (k', v) :: rest => if String.eqb k k' then Some v else lookup_field k rest
  end.

(** [v.k] for one of the keys the client reads ([detail], [type], [data],
    [documents]): reading a property of [null] raises a [TypeError], an
    object yields its field or [undefined], and no other JSON value has a
    property of one of these names. *)
Definition get_prop (v : json) (k : string) : JsError + js_value :=
  match v with
  | JNull => inl (TypeError ("Cannot read properties of null (reading '" +:+ k +:+ "')"))
  | JObj fields => inr (lookup_field k fields)
  | _ => inr None
  end.

(** Truthiness, as [||] and [if] test it. *)
Definition truthy (v : js_value) : bool :=
  match v with
  | None | Some JNull => false
  | Some (JBool b) => b
  | Some (JNum n) => negb (n =? 0)
  | Some (JStr s) => Js.truthy_string s
  | Some (JArr _) | Some (JObj _) => true
  end.

(** [a || b] *)
Definition js_or (a : js_value) (b : json) : js_value :=
  if truthy a then a else Some b.

Fixpoint join (sep : string) (l : list string) : string :=
  match l with
  | [] => ""
  | [x] => x
  | x :: rest => x +:+ sep +:+ join sep rest
  end.

(** [String(v)], the conversion [new Error(v)] and [s += v] apply.  A number
    prints as its decimal digits, which is what JavaScript prints for an
    integer of magnitude below 10^21; from there on it prints an exponent,
    which this function does not follow ([prints_in_digits] below marks the
    values it is exact on). *)
Fixpoint to_String (v : json) : string :=
  match v with
  | JNull => "null"
  | JBool true => "true"
  | JBool false => "false"
  | JNum n => pretty n
  | JStr s => s
  | JArr items =>
      join "," (map (fun x => match x with JNull => "" | _ => to_String x end) items)
  | JObj _ => "[object Object]"
  end.

Definition String_of (v : js_value) : string :=
  match v with None => "undefined" | Some j => to_String j end.

(** The values [String] prints without an exponent: every number in them,
    however deep in lists, is below 10^21 in magnitude.  (An object prints
    as '[object Object]' whatever it holds.) *)
Fixpoint prints_in_digits (v : json) : bool :=
  match v with
  | JNum n => Z.abs n <? 10 ^ 21
  | JArr items => forallb prints_in_digits items
  | _ => true
  end.

(** [v === 'literal'] *)
Definition strict_eq_string (v : js_value) (lit : string) : bool :=
  match v with Some (JStr s) => String.eqb s lit | _ => false end.

(** [a.map(f)] for a callback that may raise: the first raise ends the map. *)
Fixpoint try_map {A B} (f : A -> JsError + B) (a : list A) : JsError + list B :=
  match a with
  | [] => inr []
  | x :: rest =>
      match f x with
      | inl e => inl e
      | inr y =>
          match try_map f rest with
          | inl e => inl e
          | inr ys => inr (y :: ys)
          end
      end
  end.

(* ===================================================================== *)
(** * HTTP as [fetch] shows it *)
(* ===================================================================== *)

Inductive Method := GET | POST | DELETE.

Record File := { file_name : string; file_size : Z }.

Inductive RequestBody : Type :=
| NoBody
| FormData (entries : list (string * File))
| TextBody (text : string).

Record Request := {
  req_method : Method;
  req_url : string;
  req_headers : list (string * string);
  req_body : RequestBody
}.

(** How the body of a response ends: the stream is closed by the server, or
    the connection is lost and [reader.read()] rejects. *)
Inductive StreamEnd := EndOfStream | ConnectionLost (reason : string).

(** The body, as the decoded text of the chunks [reader.read()] yields. *)
Record Stream := { chunks : list string; ending : StreamEnd }.

Record Response := { status : Z; body : option Stream }.

(** [response.ok] *)
Definition ok (r : Response) : bool := (200 <=? status r) && (status r <=? 299).

Inductive FetchResult := NetworkFailure (reason : string) | Responded (r : Response).

Record Platform := {
  JSON_parse : string -> option json;
  JSON_stringify : json -> string;
  parse_error_message : string -> string;
  NEXT_PUBLIC_API_URL : option string
}.

(** [interface Message { role: 'user' | 'assistant'; content: string }] *)
Inductive Role := user | assistant.

Definition role_name (r : Role) : string :=
  match r with user => "user" | assistant => "assistant" end.

Record Message := { role : Role; content : string }.

(** [interface IngestResponse] and the reading of a parsed body as one. *)
Record IngestResponse := {
  success : bool;
  document_id : string;
  filename : string;
  chunks_created : Z;
  message : string
}.

Definition as_IngestResponse (v : json) : option IngestResponse :=
  match v with
  | JObj fields =>
      match lookup_field "success" fields, lookup_field "document_id" fields,
            lookup_field "filename" fields, lookup_field "chunks_created" fields,
            lookup_field "message" fields with
      | Some (JBool s), Some (JStr d), Some (JStr f), Some (JNum c), Some (JStr m) =>
          Some {| success := s; document_id := d; filename := f;
                  chunks_created := c; message := m |}
      | _, _, _, _, _ => None
      end
  | _ => None
  end.

Inductive Outcome (A : Type) : Type :=
| Resolved (a : A)
| Rejected (e : JsError).
Arguments Resolved {A} a.
Arguments Rejected {A} e.

(* ===================================================================== *)
(** * The API client, [frontend/src/lib/api.ts] *)
(* ===================================================================== *)

Declare Scope promise_scope.
Delimit Scope promise_scope with promise.

Section Client.

Context (P : Platform).
(** [St] is the state of the backend, [U] the state of the caller, which
    the callbacks handed to the client update. *)
Context {St U : Type}.
Context (backend : Request -> St -> FetchResult * St).

Record World := { server : St; sent : list Request; caller : U }.

Definition Promise (A : Type) : Type := World -> Outcome A * World.

Definition ret {A} (a : A) : Promise A := fun w => (Resolved a, w).

Definition throw {A} (e : JsError) : Promise A := fun w => (Rejected e, w).

Definition bind {A B} (m : Promise A) (k : A -> Promise B) : Promise B :=
  fun w =>
    match m w with
    | (Resolved a, w') => k a w'
    | (Rejected e, w') => (Rejected e, w')
    end.

(** [m.catch(h)] and [try { m } catch (e) { h e }] *)
Definition catch {A} (m : Promise A) (h : JsError -> Promise A) : Promise A :=
  fun w =>
    match m w with
    | (Resolved a, w') => (Resolved a, w')
    | (Rejected e, w') => h e w'
    end.

Notation "'await' x <- m ; k" := (bind m (fun x => k))
  (at level 10, x name, m at level 100, k at level 200) : promise_scope.
Local Open Scope promise_scope.

(** A callback of the caller runs on the caller's state. *)
Definition call (f : U -> U) : Promise unit :=
  fun w => (Resolved tt, {| server := server w; sent := sent w; caller := f (caller w) |}).

Definition lift_result {A} (r : JsError + A) : Promise A :=
  match r with inl e => throw e | inr a => ret a end.

(** [fetch(url, init)]: the request is logged, the backend answers. *)
Definition fetch (req : Request) : Promise Response :=
  fun w =>
    let '(res, s') := backend req (server w) in
    let w' := {| server := s'; sent := sent w ++ [req]; caller := caller w |} in
    match res with
    | NetworkFailure reason => (Rejected (TypeError reason), w')
    | Responded r => (Resolved r, w')
    end.

Definition parse (text : string) : Promise json :=
  match JSON_parse P text with
  | Some v => ret v
  | None => throw (SyntaxError (parse_error_message P text))
  end.

(** [response.json()]: the whole body is read and parsed. *)
Definition response_json (r : Response) : Promise json :=
  match body r with
  | None => parse ""
  | Some s =>
      match ending s with
      | ConnectionLost reason => throw (TypeError reason)
      | EndOfStream => parse (String.concat "" (chunks s))
      end
  end.

(** [process.env.NEXT_PUBLIC_API_URL || 'http://localhost:8000'] *)
Definition API_BASE_URL : string :=
  match NEXT_PUBLIC_API_URL P with
  | Some url => if Js.truthy_string url then url else "http://localhost:8000"
  | None => "http://localhost:8000"
  end.

Definition API_VERSION : string := "/api/v1".
Definition LEGACY_API : string := "/api".

(** [`${API_BASE_URL}${version}${path}`] *)
Definition endpoint (version path : string) : string :=
  API_BASE_URL +:+ version +:+ path.

(** The error thrown for a response that is not ok:
    [const error = await response.json().catch(() => ({ detail: fallback1 }));
     throw new Error(error.detail || fallback2)]. *)
Definition throw_api_error {A} (response : Response) (fallback1 fallback2 : string)
  : Promise A :=
  await error <- catch (response_json response)
                       (fun _ => ret (JObj [("detail", JStr fallback1)])) ;
  await detail <- lift_result (get_prop error "detail") ;
  throw (Error (String_of (js_or detail (JStr fallback2)))).

(** ** [uploadDocument] *)

Definition ingest_request (version : string) (file : File) : Request :=
  {| req_method := POST;
     req_url := endpoint version "/ingest";
     req_headers := [];
     req_body := FormData [("file", file)] |}.

Definition uploadDocument (file : File) : Promise json :=
  await response <- fetch (ingest_request API_VERSION file) ;
  await response <- (if status response =? 404
                     then fetch (ingest_request LEGACY_API file)
                     else ret response) ;
  if negb (ok response) then
    throw_api_error response "Upload failed" "Failed to upload document"
  else response_json response.

(** ** [sendChatMessage] *)

Definition message_json (m : Message) : json :=
  JObj [("role", JStr (role_name (role m))); ("content", JStr (content m))].

(** [{ message, history }] *)
Definition chat_payload (message : string) (history : list Message) : json :=
  JObj [("message", JStr message); ("history", JArr (map message_json history))].

Definition chat_request (version message : string) (history : list Message) : Request :=
  {| req_method := POST;
     req_url := endpoint version "/chat";
     req_headers := [("Content-Type", "application/json")];
     req_body := TextBody (JSON_stringify P (chat_payload message (Js.slice_last 10 history))) |}.

Section Stream.

Context (onContent onSources : js_value -> U -> U).

(** [callback(data.data)] inside the [try]. *)
Definition pass_data (callback : js_value -> U -> U) (data : json) (u : U) : U :=
  match get_prop data "data" with
  | inr d => callback d u
  | inl _ => u
  end.

(** The body of [try { ... } catch { }] for one line that starts with
    ["data: "]: what [JSON.parse] or a property access throws is caught and
    dropped.  The callbacks themselves do not throw. *)
Definition dispatch (payload : string) (u : U) : U :=
  match JSON_parse P payload with
  | None => u
  | Some data =>
      match get_prop data "type" with
      | inl _ => u
      | inr type =>
          if strict_eq_string type "content" then pass_data onContent data u
          else if strict_eq_string type "sources" then pass_data onSources data u
          else if strict_eq_string type "done" then u
          else u
      end
  end.

Definition handle_line (line : string) (u : U) : U :=
  if Js.startsWith "data: " line then dispatch (Js.slice_from 6 line) u else u.

(** [text.split('\n').filter(line => line.trim())] *)
Definition lines_of (text : string) : list string :=
  List.filter (fun line => Js.truthy_string (Js.trim line)) (Js.split Js.LF text).

Definition handle_chunk (text : string) (u : U) : U :=
  fold_left (fun u line => handle_line line u) (lines_of text) u.

(** [while (true) { const { done, value } = await reader.read(); ... }] *)
Fixpoint read_loop (pending : list string) (final : StreamEnd) : Promise unit :=
  match pending with
  | text :: rest =>
      await _ <- call (handle_chunk text) ;
      read_loop rest final
  | [] =>
      match final with
      | EndOfStream => ret tt
      | ConnectionLost reason => throw (TypeError reason)
      end
  end.

Definition sendChatMessage (message : string) (history : list Message) : Promise unit :=
  await response <- fetch (chat_request API_VERSION message history) ;
  await response <- (if status response =? 404
                     then fetch (chat_request LEGACY_API message history)
                     else ret response) ;
  if negb (ok response) then
    throw_api_error response "Chat failed" "Failed to get response"
  else
    match body response with
    | None => throw (Error "No response body")
    | Some reader => read_loop (chunks reader) (ending reader)
    end.

End Stream.

(** ** [listDocuments] *)

Definition get_request (url : string) : Request :=
  {| req_method := GET; req_url := url; req_headers := []; req_body := NoBody |}.

Definition listDocuments : Promise js_value :=
  await response <- fetch (get_request (endpoint API_VERSION "/documents")) ;
  await response <- (if status response =? 404
                     then fetch (get_request (endpoint LEGACY_API "/documents"))
                     else ret response) ;
  if negb (ok response) then
    throw_api_error response "Failed to list documents" "Failed to list documents"
  else
    await data <- response_json response ;
    lift_result (get_prop data "documents").

(** ** [deleteDocument] *)

Definition delete_request (documentId : string) : Request :=
  {| req_method := DELETE;
     req_url := endpoint API_VERSION ("/documents/" +:+ documentId);
     req_headers := [];
     req_body := NoBody |}.

Definition deleteDocument (documentId : string) : Promise json :=
  await response <- fetch (delete_request documentId) ;
  if negb (ok response) then
    throw_api_error response "Failed to delete document" "Failed to delete document"
  else response_json response.

(** ** [getStats] *)

Definition getStats : Promise json :=
  await response <- fetch (get_request (endpoint API_VERSION "/stats")) ;
  if negb (ok response) then
    throw_api_error response "Failed to get stats" "Failed to get stats"
  else response_json response.

(** ** [healthCheck] *)

Definition healthCheck : Promise bool :=
  catch (await response <- fetch (get_request (API_BASE_URL +:+ "/health")) ;
         ret (ok response))
        (fun _ => ret false).

End Client.

Arguments World : clear implicits.
Arguments Promise : clear implicits.

Notation "'await' x <- m ; k" := (bind m (fun x => k))
  (at level 10, x name, m at level 100, k at level 200) : promise_scope.

(* ===================================================================== *)
(** * The upload widget, [frontend/src/components/FileUpload.tsx] *)
(* ===================================================================== *)

Module FileUpload.

Inductive UploadStatus := uploading | success | error.

(** [interface UploadedFile]; the optional fields hold what the response
    carried, unchecked. *)
Record UploadedFile := {
  name : string;
  upload_status : UploadStatus;
  message : js_value;
  chunks_created : js_value
}.

Definition MAX_SIZE : Z := 50 * 1024 * 1024.

Definition rejected_entry (file : File) (reason : string) : UploadedFile :=
  {| name := file_name file; upload_status := error;
     message := Some (JStr reason); chunks_created := None |}.

(** [{ ...f, status: 'success', message: result.message,
       chunks: result.chunks_created }]: reading a property of a [result]
    that is [null] raises. *)
Definition succeeded (result : json) (f : UploadedFile) : JsError + UploadedFile :=
  match get_prop result "message" with
  | inl e => inl e
  | inr m =>
      match get_prop result "chunks_created" with
      | inl e => inl e
      | inr c => inr {| name := name f; upload_status := success;
                        message := m; chunks_created := c |}
      end
  end.

(** [{ ...f, status: 'error', message: error.message }] *)
Definition failed (err : JsError) (f : UploadedFile) : UploadedFile :=
  {| name := name f; upload_status := error;
     message := Some (JStr (message_of err)); chunks_created := chunks_created f |}.

Section Widget.

Context (P : Platform) {St : Type} (backend : Request -> St -> FetchResult * St).

Local Open Scope promise_scope.

(** [setFiles(updater)] *)
Definition setFiles (updater : list UploadedFile -> list UploadedFile)
  : Promise St (list UploadedFile) unit := call updater.

(** [setFiles(updater)] for an updater that may raise.  React runs the
    updater when it works out the next state, not under the [try] of the
    caller: when the updater raises, the call returns all the same, the list
    stays as it was, and the error comes up again when the widget is
    rendered. *)
Definition setFiles_raising (updater : list UploadedFile -> JsError + list UploadedFile)
  : Promise St (list UploadedFile) unit :=
  call (fun prev => match updater prev with inr next => next | inl _ => prev end).

Definition processFile (file : File) : Promise St (list UploadedFile) unit :=
  if negb (Js.endsWith ".pdf" (Js.toLowerCase (file_name file))) then
    setFiles (fun prev => prev ++ [rejected_entry file "Only PDF files are supported"])
  else if file_size file >? MAX_SIZE then
    setFiles (fun prev => prev ++ [rejected_entry file "File size exceeds 50MB limit"])
  else
    await _ <- setFiles (fun prev =>
                 prev ++ [{| name := file_name file; upload_status := uploading;
                             message := None; chunks_created := None |}]) ;
    catch
      (await result <- uploadDocument P backend file ;
       setFiles_raising (fun prev =>
         try_map (fun f =>
                    if String.eqb (name f) (file_name file)
                    then succeeded result f
                    else inr f) prev))
      (fun err =>
         setFiles (fun prev =>
           map (fun f =>
                  if String.eqb (name f) (file_name file)
                  then failed err f
                  else f) prev)).

End Widget.

End FileUpload.

(* ===================================================================== *)
(** * The chat page, [frontend/src/app/page.tsx] *)
(* ===================================================================== *)

Module Page.

(** The state of [Home]: one field per [useState]. *)
Record State := {
  messages : list Message;
  input : string;
  isLoading : bool;
  error : option string;
  sources : js_value;
  showUpload : bool
}.

Definition initial : State :=
  {| messages := []; input := ""; isLoading := false; error := None;
     sources := Some (JArr []); showUpload := false |}.

Definition setMessages (f : list Message -> list Message) (s : State) : State :=
  {| messages := f (messages s); input := input s; isLoading := isLoading s;
     error := error s; sources := sources s; showUpload := showUpload s |}.

Definition setInput (v : string) (s : State) : State :=
  {| messages := messages s; input := v; isLoading := isLoading s;
     error := error s; sources := sources s; showUpload := showUpload s |}.

Definition setIsLoading (v : bool) (s : State) : State :=
  {| messages := messages s; input := input s; isLoading := v;
     error := error s; sources := sources s; showUpload := showUpload s |}.

Definition setError (v : option string) (s : State) : State :=
  {| messages := messages s; input := input s; isLoading := isLoading s;
     error := v; sources := sources s; showUpload := showUpload s |}.

Definition setSources (v : js_value) (s : State) : State :=
  {| messages := messages s; input := input s; isLoading := isLoading s;
     error := error s; sources := v; showUpload := showUpload s |}.

(** The updater of the streaming callback, on the messages the array
    shows and run once:
    [const lastMessage = newMessages[newMessages.length - 1];
     if (lastMessage.role === 'assistant') lastMessage.content += chunk].
    The update is made in place, on the message object the previous array
    holds too; [update_last] below is the updater on the objects, which this
    function agrees with on one run.  On an empty array the updater raises;
    the array is not empty when the callback runs, [handleSubmit] having
    appended two messages to it. *)
Fixpoint append_to_last (chunk : js_value) (prev : list Message) : list Message :=
  match prev with
  | [] => []
  | [lastMessage] =>
      match role lastMessage with
      | assistant =>
          [{| role := assistant; content := content lastMessage +:+ String_of chunk |}]
      | user => [lastMessage]
      end
  | m :: rest => m :: append_to_last chunk rest
  end.

(** The streaming callback in a production build, where React runs the
    updater of a [setMessages] once. *)
Definition onContent (chunk : js_value) : State -> State :=
  setMessages (append_to_last chunk).

(** The streaming callback when React runs the updater once and then
    [reruns] more times on the same previous array, as StrictMode
    ([reactStrictMode] in next.config.js) makes it do in a development
    build: the update being made in place, every run appends the chunk to
    the same message ([update_last] and [run_updater] below are the updater
    and its runs on the message objects). *)
Definition onContent_under (reruns : nat) (chunk : js_value) : State -> State :=
  setMessages (Nat.iter (S reruns) (append_to_last chunk)).

(** The message objects.  [[...prev]] copies the array and not the
    messages: the objects live in a store, a list of messages by position,
    and an array of the state holds their addresses.  [shown] is the list of
    the messages an array shows. *)
Definition shown (objects : list Message) (array : list nat) : list Message :=
  omap (fun address => objects !! address) array.

(** The updater of the streaming callback on the objects:
    [prev => { const newMessages = [...prev];
               const lastMessage = newMessages[newMessages.length - 1];
               if (lastMessage.role === 'assistant') lastMessage.content += chunk;
               return newMessages; }].
    It returns the new array and leaves the store with [lastMessage] changed
    in place; it raises on the empty array, whose last element is
    [undefined] (as would an address without object, which no array of the
    state holds). *)
Definition update_last (chunk : js_value) (prev : list nat) (objects : list Message)
  : JsError + list nat * list Message :=
  let newMessages := prev in
  match last newMessages with
  | None => inl (TypeError "Cannot read properties of undefined (reading 'role')")
  | Some address =>
      match objects !! address with
      | None => inl (TypeError "Cannot read properties of undefined (reading 'role')")
      | Some lastMessage =>
          match role lastMessage with
          | assistant =>
              inr (newMessages,
                   <[address := {| role := assistant;
                                   content := content lastMessage +:+ String_of chunk |}]>
                     objects)
          | user => inr (newMessages, objects)
          end
      end
  end.

(** React running the updater of one [setMessages] call: once, and then
    [reruns] more times on the same previous array (none in a production
    build; StrictMode reruns updaters in development).  The next state is
    the array of the last run; the store keeps what every run did to it. *)
Fixpoint run_updater (reruns : nat)
    (updater : list nat -> list Message -> JsError + list nat * list Message)
    (prev : list nat) (objects : list Message) : JsError + list nat * list Message :=
  match updater prev objects with
  | inl e => inl e
  | inr (next, objects') =>
      match reruns with
      | O => inr (next, objects')
      | S fewer => run_updater fewer updater prev objects'
      end
  end.

Definition onSources (newSources : js_value) : State -> State :=
  setSources newSources.

(** [prev.filter(m => m.content !== '')] *)
Definition drop_empty (prev : list Message) : list Message :=
  List.filter (fun m => Js.truthy_string (content m)) prev.

(** The state [handleSubmit] has reached when it calls [sendChatMessage]:
    the user message and the empty assistant message appended, the input
    cleared, the request in flight. *)
Definition pending (s : State) : State :=
  {| messages := messages s ++ [{| role := user; content := Js.trim (input s) |};
                                {| role := assistant; content := "" |}];
     input := ""; isLoading := true; error := None;
     sources := Some (JArr []); showUpload := showUpload s |}.

(** A user message is well formed: its content is not empty and is
    trimmed. *)
Definition user_ok (m : Message) : Prop :=
  role m = user -> content m <> "" /\ Js.trim (content m) = content m.

Section Home.

Context (P : Platform) {St : Type} (backend : Request -> St -> FetchResult * St).

Local Open Scope promise_scope.

(** [handleSubmit]: [input], [isLoading] and [messages] are the values the
    handler closed over, those of the state it is called in.  [reruns] is
    the number of times React reruns an updater: none in a production build.
    Of the updaters of the handler only the one of the streaming callback
    changes an object in place; a rerun of any other one changes nothing. *)
Definition handleSubmit_under (reruns : nat) : Promise St State unit :=
  fun w =>
    let closure := caller w in
    if negb (Js.truthy_string (Js.trim (input closure))) || isLoading closure
    then ret tt w
    else
      let userMessage := {| role := user; content := Js.trim (input closure) |} in
      let assistantMessage := {| role := assistant; content := "" |} in
      (await _ <- call (setMessages (fun prev => prev ++ [userMessage])) ;
       await _ <- call (setInput "") ;
       await _ <- call (setIsLoading true) ;
       await _ <- call (setError None) ;
       await _ <- call (setSources (Some (JArr []))) ;
       await _ <- call (setMessages (fun prev => prev ++ [assistantMessage])) ;
       await _ <- catch
                    (sendChatMessage P backend (onContent_under reruns) onSources
                       (content userMessage) (messages closure))
                    (fun err =>
                       await _ <- call (setError (Some (message_of err))) ;
                       call (setMessages drop_empty)) ;
       call (setIsLoading false)) w.

(** [handleSubmit] in a production build. *)
Definition handleSubmit : Promise St State unit := handleSubmit_under 0.

(** The world in which [handleSubmit] calls [sendChatMessage], and the
    call itself. *)
Definition in_flight (w : World St State) : World St State :=
  {| server := server w; sent := sent w; caller := pending (caller w) |}.

Definition the_chat_under (reruns : nat) (w : World St State)
  : Outcome unit * World St State :=
  sendChatMessage P backend (onContent_under reruns) onSources
    (Js.trim (input (caller w))) (messages (caller w)) (in_flight w).

Definition the_chat (w : World St State) : Outcome unit * World St State :=
  sendChatMessage P backend onContent onSources
    (Js.trim (input (caller w))) (messages (caller w)) (in_flight w).

Definition with_caller (w : World St State) (s : State) : World St State :=
  {| server := server w; sent := sent w; caller := s |}.

(** [handleKeyDown]: Enter without Shift submits, any other key is left to
    the text area. *)
Definition handleKeyDown (key : string) (shiftKey : bool) : Promise St State unit :=
  if String.eqb key "Enter" && negb shiftKey then handleSubmit else ret tt.

End Home.

(** [isStreaming={isLoading && index === messages.length - 1}], the flag the
    page hands to the bubble of the message at [index]. *)
Definition isStreaming (s : State) (index : nat) : bool :=
  isLoading s && (Z.of_nat index =? Z.of_nat (length (messages s)) - 1).

End Page.

(* ===================================================================== *)
(** * The message bubble, [frontend/src/components/ChatMessage.tsx] *)
(* ===================================================================== *)

Module ChatMessage.

(** What the bubble of a message shows. *)
Inductive Body :=
| PlainText (text : string)      (* the paragraph of a user message *)
| Markdown (text : string)       (* [<ReactMarkdown>] of an assistant message *)
| LoadingDots                    (* the three dots *)
| Nothing.                       (* [null] *)

(** [const isUser = message.role === 'user'] *)
Definition isUser (m : Message) : bool :=
  match role m with user => true | assistant => false end.

(** [isUser ? <p>...</p> : message.content ? <ReactMarkdown> : isStreaming ? dots : null] *)
Definition body_of (m : Message) (isStreaming : bool) : Body :=
  if isUser m then PlainText (content m)
  else if Js.truthy_string (content m) then Markdown (content m)
  else if isStreaming then LoadingDots
  else Nothing.

(** [{isStreaming && message.content && <span ... />}], inside the branch of
    the assistant. *)
Definition cursor (m : Message) (isStreaming : bool) : bool :=
  negb (isUser m) && isStreaming && Js.truthy_string (content m).

End ChatMessage.

(* ===================================================================== *)
(** * The build configuration, [frontend/next.config.js] *)
(* ===================================================================== *)

Module NextConfig.

(** [env: { NEXT_PUBLIC_API_URL: process.env.NEXT_PUBLIC_API_URL
                                 || 'http://backend-service:8000' }] *)
Definition env_NEXT_PUBLIC_API_URL (environment : option string) : string :=
  match environment with
  | Some url => if Js.truthy_string url then url else "http://backend-service:8000"
  | None => "http://backend-service:8000"
  end.

(** The platform the client runs on once the build has fixed the variable. *)
Definition built (P : Platform) (environment : option string) : Platform :=
  {| JSON_parse := JSON_parse P;
     JSON_stringify := JSON_stringify P;
     parse_error_message := parse_error_message P;
     NEXT_PUBLIC_API_URL := Some (env_NEXT_PUBLIC_API_URL environment) |}.

End NextConfig.

(* ===================================================================== *)
(** * The names of the Helm chart, [charts/rag-stack/templates/_helpers.tpl] *)
(* ===================================================================== *)

Module Helm.

(** The template functions the helpers use, as Sprig defines them on
    strings of bytes. *)

(** [trunc n s]: the first [n] bytes of [s] when [s] is longer. *)
Definition trunc (n : nat) (s : string) : string :=
  if (n <? String.length s)%nat then String.substring 0 n s else s.

(** [trimSuffix "-" s]: [s] without one trailing hyphen, if it has one. *)
Fixpoint trimSuffix_hyphen (s : string) : string :=
  match s with
  | EmptyString => EmptyString
  | String c EmptyString => if Ascii.eqb c "-" then EmptyString else s
  | String c r => String c (trimSuffix_hyphen r)
  end.

(** [default d v]: [v] unless it is empty. *)
Definition default (d v : string) : string :=
  if Js.truthy_string v then v else d.

(** [contains sub s]: [sub] occurs in [s]. *)
Fixpoint contains (sub s : string) : bool :=
  String.prefix sub s
  || match s with
     | EmptyString => false
     | String _ r => contains sub r
     end.

(** [replace "+" "_" s] *)
Fixpoint replace_plus (s : string) : string :=
  match s with
  | EmptyString => EmptyString
  | String c r => String (if Ascii.eqb c "+" then "_"%char else c) (replace_plus r)
  end.

(** What the helpers read of the context [.]. *)
Record Context := {
  Chart_Name : string;
  Chart_Version : string;
  Release_Name : string;
  Values_nameOverride : string;
  Values_fullnameOverride : string;
  Values_serviceAccount_create : bool;
  Values_serviceAccount_name : string;
  Values_postgresPassword : string;
  Values_database : string
}.

(** [... | trunc 63 | trimSuffix "-"] *)
Definition dns_label (s : string) : string := trimSuffix_hyphen (trunc 63 s).

(** [rag-stack.name] *)
Definition name (c : Context) : string :=
  dns_label (default (Chart_Name c) (Values_nameOverride c)).

(** [rag-stack.fullname] *)
Definition fullname (c : Context) : string :=
  if Js.truthy_string (Values_fullnameOverride c) then
    dns_label (Values_fullnameOverride c)
  else
    let name := default (Chart_Name c) (Values_nameOverride c) in
    if contains name (Release_Name c) then dns_label (Release_Name c)
    else dns_label (Release_Name c +:+ "-" +:+ name).

(** [rag-stack.chart] *)
Definition chart (c : Context) : string :=
  dns_label (replace_plus (Chart_Name c +:+ "-" +:+ Chart_Version c)).

(** [rag-stack.serviceAccountName] *)
Definition serviceAccountName (c : Context) : string :=
  if Values_serviceAccount_create c
  then default (fullname c) (Values_serviceAccount_name c)
  else default "default" (Values_serviceAccount_name c).

(** [rag-stack.backend.fullname], [rag-stack.frontend.fullname] and
    [rag-stack.postgresql.fullname] *)
Definition backend_fullname (c : Context) : string :=
  dns_label (fullname c +:+ "-backend").

Definition frontend_fullname (c : Context) : string :=
  dns_label (fullname c +:+ "-frontend").

Definition postgresql_fullname (c : Context) : string :=
  dns_label (fullname c +:+ "-postgresql").

(** [rag-stack.databaseUrl] *)
Definition databaseUrl (c : Context) : string :=
  "postgresql+asyncpg://postgres:" +:+ Values_postgresPassword c +:+ "@"
    +:+ postgresql_fullname c +:+ ":5432/" +:+ Values_database c.

End Helm.

(* ===================================================================== *)
(** * The chunker (design document, section 4.1) *)
(* ===================================================================== *)

Module Chunker.

Inductive ConfigurationError := OverlapNotBelowSize.

(** Modelled from the spec: the chunker of the backend, which is not among
    the sources.  "Walk the text with a sliding window of width [size],
    advancing the window start by [size - overlap] each step; the final
    segment may be shorter than [size] (no padding)."  The walk ends with
    the first window that reaches the end of the text, the reading under
    which a text no longer than [size] is one segment and 2500 characters
    with size 1000 and overlap 200 are 3 segments, as sections 4.1 and 8
    say.  [fuel] bounds the number of windows; the length of the text is
    always enough, since the start advances by at least one character. *)
Fixpoint windows (fuel : nat) (text : string) (start size step : nat) : list string :=
  match fuel with
  | O => []
  | S fuel' =>
      let segment := String.substring start size text in
      if (String.length text <=? start + size)%nat then [segment]
      else segment :: windows fuel' text (start + step) size step
  end.

(** Modelled from the spec: "empty text produces zero segments; text
    shorter than [size] produces exactly one segment equal to the whole
    text; [overlap >= size] is a configuration error, rejected before
    processing." *)
Definition chunk_text (text : string) (size overlap : nat)
  : ConfigurationError + list string :=
  if (size <=? overlap)%nat then inl OverlapNotBelowSize
  else match text with
       | EmptyString => inr []
       | _ => inr (windows (String.length text) text 0 size (size - overlap))
       end.

(** [ceil(a / b)] on natural numbers. *)
Definition ceil_div (a b : nat) : nat := ((a + b - 1) / b)%nat.

End Chunker.

(* ===================================================================== *)
(** * The vector store (design document, section 4.3) *)
(* ===================================================================== *)

Module VectorStore.

Record DocumentRow := { display_name : string; created_at : nat }.

Record ChunkRow := {
  document_id : string;
  sequence_index : nat;
  segment : string;
  embedding : list Z   (* the components of the vector; no operation below reads them *)
}.

(** Modelled from the spec: the persistence behind the backend, which is
    not among the sources: the documents by id and the chunks in insertion
    order, each chunk naming the document that owns it. *)
Record Store := { documents : gmap string DocumentRow; chunks : list ChunkRow }.

Inductive StoreError := NotFoundError (id : string).

Record DeleteResult := { deleted_id : string; chunks_deleted : nat }.


Definition owned_by (id : string) (c : ChunkRow) : bool := String.eqb (document_id c) id.

(** Modelled from the spec: "[delete_document(document_id)] removes the
    document and all its chunks atomically; fails with [NotFoundError] if
    the id does not exist."  One transition of the store: the caller sees
    the store before or the store after, nothing in between. *)
Definition delete_document (id : string) (s : Store) : StoreError + DeleteResult * Store :=
  match documents s !! id with
  | None => inl (NotFoundError id)
  | Some _ =>
      inr ({| deleted_id := id;
              chunks_deleted := length (List.filter (owned_by id) (chunks s)) |},
           {| documents := delete id (documents s);
              chunks := List.filter (fun c => negb (owned_by id c)) (chunks s) |})
  end.


(** "A chunk is never orphaned." *)
Definition no_orphans (s : Store) : Prop :=
  Forall (fun c => is_Some (documents s !! document_id c)) (chunks s).

End VectorStore.

(* ===================================================================== *)
(** * The stats operation as the backend exposes it (design document,
      section 6) *)
(* ===================================================================== *)

Module Server.




End Server.

(* ===================================================================== *)
(** * The answer events (design document, section 4.5) and their framing *)
(* ===================================================================== *)

Module Answer.

Inductive Event :=
| Sources (names : list string)
| Content (fragment : string)
| Done
| Failed (message : string).

(** What the generation capability yields: the fragments in generation
    order and, when it fails or the connection drops, the message. *)
Record Generation := { fragments : list string; failure : option string }.

(** The distinct names, each at its first appearance. *)
Fixpoint distinct (seen names : list string) : list string :=
  match names with
  | [] => []
  | n :: rest =>
      if existsb (String.eqb n) seen then distinct seen rest
      else n :: distinct (n :: seen) rest
  end.

(** Modelled from the spec: the producer of the event stream in the
    backend, which is not among the sources.  "Emit, in order: a single
    sources event listing the distinct owning document names of the
    retrieved chunks (order: first appearance in similarity-ranked order);
    then a sequence of content events, one per generated fragment, in
    generation order; then one terminal done event.  If the generation
    call fails or the connection drops mid-stream, the pipeline emits an
    error event with a message and stops; it does not emit done after an
    error." *)
Definition answer_events (retrieved : list string) (g : Generation) : list Event :=
  Sources (distinct [] retrieved)
    :: map Content (fragments g)
    ++ [match failure g with None => Done | Some message => Failed message end].

(** The object of an event on the wire, as the API reference of the README
    shows it for the first three kinds; the error event carries its message
    in the same field. *)
Definition event_json (e : Event) : json :=
  match e with
  | Sources names => JObj [("type", JStr "sources"); ("data", JArr (map JStr names))]
  | Content fragment => JObj [("type", JStr "content"); ("data", JStr fragment)]
  | Done => JObj [("type", JStr "done")]
  | Failed message => JObj [("type", JStr "error"); ("data", JStr message)]
  end.

Definition blank_line : string := String Js.LF (String Js.LF EmptyString).

(** The line of an event. *)
Definition line (encode : json -> string) (e : Event) : string :=
  "data: " +:+ encode (event_json e).

(** One server-sent event: the line [data: <json>] and an empty line.
    [encode] is the JSON encoder of the backend. *)
Definition frame (encode : json -> string) (e : Event) : string :=
  line encode e +:+ blank_line.

(** A delivery of the events to the reader: each chunk carries the frames
    of a group of consecutive events whole. *)
Definition deliver_whole (encode : json -> string) (groups : list (list Event))
  : list string :=
  map (fun group => String.concat "" (map (frame encode) group)) groups.

(** What the callbacks of a caller that records them have seen. *)
Inductive Callback := SawContent (chunk : js_value) | SawSources (names : js_value).

Definition record_content (chunk : js_value) (log : list Callback) : list Callback :=
  log ++ [SawContent chunk].

Definition record_sources (names : js_value) (log : list Callback) : list Callback :=
  log ++ [SawSources names].

(** The callbacks a stream of events is due. *)
Definition due (e : Event) : list Callback :=
  match e with
  | Sources names => [SawSources (Some (JArr (map JStr names)))]
  | Content fragment => [SawContent (Some (JStr fragment))]
  | Done | Failed _ => []
  end.

(** The callback an event is due, run on the state of the caller. *)
Definition apply_event {U} (onContent onSources : js_value -> U -> U)
    (u : U) (e : Event) : U :=
  match e with
  | Sources names => onSources (Some (JArr (map JStr names))) u
  | Content fragment => onContent (Some (JStr fragment)) u
  | Done | Failed _ => u
  end.

(** The encoder and the parser agree on the event and the encoding has no
    line feed in it, as a JSON encoding has. *)
Definition well_framed (P : Platform) (encode : json -> string) (e : Event) : Prop :=
  JSON_parse P (encode (event_json e)) = Some (event_json e)
  /\ Js.contains Js.LF (encode (event_json e)) = false.

(** Every [SawContent] of the log comes after a [SawSources]. *)
Definition sources_precede_content (log : list Callback) : Prop :=
  forall before chunk after,
    log = before ++ SawContent chunk :: after ->
    exists names, In (SawSources names) before.

(** The events are ordered: one sources event first, then content events
    only, then one terminal event, which is [last]. *)
Definition ordered (events : list Event) (last : Event) : Prop :=
  exists names fragments,
    events = Sources names :: map Content fragments ++ [last].

End Answer.

(* ===================================================================== *)
(** * A concrete platform and concrete backends, for the examples *)
(* ===================================================================== *)

Module Demo.

Definition quote : string := String (ascii_of_nat 34) EmptyString.

(** A JSON encoder without escapes, for texts that need none. *)
Fixpoint stringify (v : json) : string :=
  match v with
  | JNull => "null"
  | JBool true => "true"
  | JBool false => "false"
  | JNum n => pretty n
  | JStr s => quote +:+ s +:+ quote
  | JArr items => "[" +:+ join "," (map stringify items) +:+ "]"
  | JObj fields =>
      "{" +:+ join "," (map (fun kv => quote +:+ fst kv +:+ quote +:+ ":" +:+ stringify (snd kv))
                             fields) +:+ "}"
  end.

(** [JSON.parse] restricted to the texts of a table of values: a text
    parses to the value of the table it encodes, any other text does not
    parse. *)
Definition table_parse (table : list json) (text : string) : option json :=
  List.find (fun v => String.eqb (stringify v) text) table.

Definition platform (table : list json) : Platform :=
  {| JSON_parse := table_parse table;
     JSON_stringify := stringify;
     parse_error_message :=
       fun text => match text with
                   | EmptyString => "Unexpected end of JSON input"
                   | _ => "Unexpected token"
                   end;
     NEXT_PUBLIC_API_URL := None |}.

(** A backend without state that answers every request the same way. *)
Definition always (answer : FetchResult) : Request -> unit -> FetchResult * unit :=
  fun _ s => (answer, s).

Definition closed (texts : list string) : option Stream :=
  Some {| chunks := texts; ending := EndOfStream |}.

(** A backend that has the legacy routes only: it answers 404 to every URL
    under /api/v1 and [answer] to any other. *)
Definition legacy_only (answer : FetchResult) : Request -> unit -> FetchResult * unit :=
  fun request s =>
    if Js.startsWith "http://localhost:8000/api/v1/" (req_url request)
    then (Responded {| status := 404; body := closed ["Not Found"] |}, s)
    else (answer, s).

Definition start {St U} (s : St) (u : U) : World St U :=
  {| server := s; sent := []; caller := u |}.

Definition paper : File := {| file_name := "paper.pdf"; file_size := 1024 |}.

(** The events of an answer with two fragments. *)
Definition answer : list Answer.Event :=
  Answer.answer_events ["doc1.pdf"; "doc2.pdf"; "doc1.pdf"]
    {| Answer.fragments := ["Based on"; " the documents"]; Answer.failure := None |}.

(** The events of an answer whose generation fails after one fragment. *)
Definition broken_answer : list Answer.Event :=
  Answer.answer_events ["doc1.pdf"]
    {| Answer.fragments := ["Based on"]; Answer.failure := Some "generation failed" |}.

Definition events_platform : Platform :=
  platform (map Answer.event_json (answer ++ broken_answer)).

(** The sources frame cut in two by the transport, the rest whole. *)
Definition cut_delivery : list string :=
  match map (Answer.frame stringify) answer with
  | first :: rest =>
      [String.substring 0 20 first;
       String.substring 20 (String.length first - 20) first +:+ String.concat "" rest]
  | [] => []
  end.

Definition streaming (texts : list string) (final : StreamEnd) : FetchResult :=
  Responded {| status := 200; body := Some {| chunks := texts; ending := final |} |}.

(** The page with a question typed in. *)
Definition asking : Page.State :=
  {| Page.messages := []; Page.input := " What is this document about? ";
     Page.isLoading := false; Page.error := None;
     Page.sources := Some (JArr []); Page.showUpload := false |}.

(** The response the README shows for an ingestion. *)
Definition ingested : json :=
  JObj [("success", JBool true); ("document_id", JStr "uuid");
        ("filename", JStr "document.pdf"); ("chunks_created", JNum 42);
        ("message", JStr "Successfully ingested document.pdf with 42 chunks")].




(** The body of a listing with no document, and the body of an error. *)
Definition listing : json := JObj [("documents", JArr []); ("total", JNum 0)].

Definition unavailable : json := JObj [("detail", JStr "Embedding provider unavailable")].

Definition overloaded : Response :=
  {| status := 503; body := closed [stringify unavailable] |}.

(** The body of a validation error, whose detail is a list of objects, and
    the response that carries it. *)
Definition invalid : json :=
  JObj [("detail", JArr [JObj [("msg", JStr "field required");
                               ("type", JStr "value_error.missing")]])].

Definition unprocessable : Response :=
  {| status := 422; body := closed [stringify invalid] |}.

(** A platform that parses the bodies of the examples of errors. *)
Definition errors_platform : Platform :=
  platform [invalid; JNull; JObj []; unavailable].


(** The answer of the examples cut short by the transport after its first
    two frames. *)
Definition first_frames : list string :=
  Answer.deliver_whole stringify
    [[Answer.Sources ["doc1.pdf"; "doc2.pdf"]; Answer.Content "Based on"]].

End Demo.

(* ===================================================================== *)
(** * Notions used to state the results *)
(* ===================================================================== *)

Section Notions.

Context (P : Platform) {St U : Type} (backend : Request -> St -> FetchResult * St).

(** What [response.json()] comes to, as a value. *)
Definition body_json (r : Response) : JsError + json :=
  let parsed text :=
    match JSON_parse P text with
    | Some v => inr v
    | None => inl (SyntaxError (parse_error_message P text))
    end in
  match body r with
  | None => parsed ""
  | Some s =>
      match ending s with
      | ConnectionLost reason => inl (TypeError reason)
      | EndOfStream => parsed (String.concat "" (chunks s))
      end
  end.

(** The error [throw_api_error] throws. *)
Definition api_error (r : Response) (fallback1 fallback2 : string) : JsError :=
  let error :=
    match body_json r with
    | inr v => v
    | inl _ => JObj [("detail", JStr fallback1)]
    end in
  match get_prop error "detail" with
  | inl e => e
  | inr detail => Error (String_of (js_or detail (JStr fallback2)))
  end.

(** [error.detail] for a parsed body that is not [null]: the field of an
    object, [undefined] for any other value. *)
Definition detail_of (v : json) : js_value :=
  match v with
  | JObj fields => lookup_field "detail" fields
  | _ => None
  end.

(** The end of [if (!response.ok) { throw ... } return response.json()]. *)
Definition settle (r : Response) (fallback1 fallback2 : string) : Outcome json :=
  if ok r then
    match body_json r with inr v => Resolved v | inl e => Rejected e end
  else Rejected (api_error r fallback1 fallback2).

(** An operation ends in one of two ways only: resolved, or rejected with
    the error made from a response that is not ok. *)
Definition resolved_or_refused (outcome : Outcome json) (final : option Response)
    (fallback1 fallback2 : string) : Prop :=
  (exists v, outcome = Resolved v)
  \/ (exists r, final = Some r /\ ok r = false
                /\ outcome = Rejected (api_error r fallback1 fallback2)).

(** An operation rejects exactly when the response is not ok. *)
Definition rejects_exactly_when_not_ok (outcome : Outcome json) (r : Response) : Prop :=
  (exists e, outcome = Rejected e) <-> ok r = false.

(** The requests of an operation that tries [v1] and falls back to
    [legacy]: the second one is sent when the first is answered 404. *)
Definition attempts (s : St) (v1 legacy : Request) : list Request :=
  match backend v1 s with
  | (Responded r, _) => if status r =? 404 then [v1; legacy] else [v1]
  | (NetworkFailure _, _) => [v1]
  end.

(** The response an operation with fallback goes on with, if any. *)
Definition final_response (s : St) (v1 legacy : Request) : option Response :=
  match backend v1 s with
  | (Responded r, s1) =>
      if status r =? 404 then
        match backend legacy s1 with
        | (Responded r2, _) => Some r2
        | (NetworkFailure _, _) => None
        end
      else Some r
  | (NetworkFailure _, _) => None
  end.

(** [op] sends [v1], sends [legacy] next exactly when [v1] is answered
    with status 404, and rejects without a second request on any other
    status that is not ok. *)
Definition retries_exactly_on_404 {A} (op : Promise St U A) (v1 legacy : Request) : Prop :=
  forall w,
    match backend v1 (server w) with
    | (Responded r, _) =>
        if status r =? 404 then sent (snd (op w)) = sent w ++ [v1; legacy]
        else sent (snd (op w)) = sent w ++ [v1]
             /\ (ok r = false -> exists e, fst (op w) = Rejected e)
    | (NetworkFailure reason, _) =>
        sent (snd (op w)) = sent w ++ [v1]
        /\ fst (op w) = Rejected (TypeError reason)
    end.

(** [op] sends [v1] and nothing else, and rejects when it is answered 404. *)
Definition never_falls_back {A} (op : Promise St U A) (v1 : Request) : Prop :=
  forall w,
    sent (snd (op w)) = sent w ++ [v1]
    /\ forall r s, backend v1 (server w) = (Responded r, s) -> status r = 404 ->
                   exists e, fst (op w) = Rejected e.

End Notions.

Section FurtherNotions.

Context (P : Platform) {St U : Type}.

(** Every request [op] sends goes to a URL under the base URL. *)
Definition stays_on_base {A} (op : Promise St U A) : Prop :=
  forall w, exists requests,
    sent (snd (op w)) = sent w ++ requests
    /\ Forall (fun request => Js.startsWith (API_BASE_URL P) (req_url request) = true)
              requests.

End FurtherNotions.

(** The page once an answer has been streamed to its end. *)
Definition answered (before : Page.State) (names : js_value) (answer : string) : Page.State :=
  {| Page.messages :=
       Page.messages before
       ++ [{| role := user; content := Js.trim (Page.input before) |};
           {| role := assistant; content := answer |}];
     Page.input := ""; Page.isLoading := false; Page.error := None;
     Page.sources := names; Page.showUpload := Page.showUpload before |}.

(** The page once a request has failed before any content came. *)
Definition refused (before : Page.State) (reason : string) : Page.State :=
  {| Page.messages :=
       Page.drop_empty (Page.messages before)
       ++ [{| role := user; content := Js.trim (Page.input before) |}];
     Page.input := ""; Page.isLoading := false; Page.error := Some reason;
     Page.sources := Some (JArr []); Page.showUpload := Page.showUpload before |}.

(* ===================================================================== *)
(** * Results *)
(* ===================================================================== *)

(** ** The steps of the client *)

Section ClientFacts.

Context (P : Platform) {St U : Type} (backend : Request -> St -> FetchResult * St).

Lemma response_json_run (r : Response) (w : World St U) :
  response_json P r w
  = (match body_json P r with inr v => Resolved v | inl e => Rejected e end, w).
Proof.
  unfold response_json, body_json, parse.
  destruct (body r) as [s|].
  - destruct (ending s); [|reflexivity].
    destruct (JSON_parse P _); reflexivity.
  - destruct (JSON_parse P _); reflexivity.
Qed.

Lemma throw_api_error_run {A} (r : Response) (f1 f2 : string) (w : World St U) :
  @throw_api_error P St U A r f1 f2 w = (Rejected (api_error P r f1 f2), w).
Proof.
  unfold throw_api_error, api_error, bind, catch.
  rewrite response_json_run.
  destruct (body_json P r) as [e|v]; simpl.
  - reflexivity.
  - destruct (get_prop v "detail"); reflexivity.
Qed.

Lemma ok_404 (r : Response) : status r = 404 -> ok r = false.
Proof. unfold ok. intros ->. reflexivity. Qed.

Section Reader.

Context (onContent onSources : js_value -> U -> U).

Lemma read_loop_run (pending : list string) (final : StreamEnd) (w : World St U) :
  read_loop P onContent onSources pending final w
  = (match final with
     | EndOfStream => Resolved tt
     | ConnectionLost reason => Rejected (TypeError reason)
     end,
     {| server := server w; sent := sent w;
        caller := fold_left (fun u text => handle_chunk P onContent onSources text u)
                            pending (caller w) |}).
Proof.
  revert w. induction pending as [|text rest IH]; intros w; simpl.
  - destruct w, final; reflexivity.
  - unfold bind, call. simpl. rewrite IH. reflexivity.
Qed.

End Reader.

End ClientFacts.

(** ** Which requests the client sends *)

Section Requests.

Context (P : Platform) {St U : Type} (backend : Request -> St -> FetchResult * St).

(** One [await fetch(...)] of the operation under study. *)
Ltac answer_of_backend :=
  match goal with
  | |- context [backend ?request ?s] =>
      let reason := fresh "reason" in
      let r := fresh "r" in
      let s' := fresh "s" in
      destruct (backend request s) as [[reason|r] s'] eqn:?; simpl
  end.

(** What follows the fetches leaves the log of requests alone. *)
Ltac rest_is_local :=
  repeat first
    [ rewrite throw_api_error_run
    | rewrite response_json_run
    | rewrite read_loop_run ];
  simpl; rewrite <- ?app_assoc; simpl;
  repeat match goal with
    | |- context [body_json ?P ?r] => destruct (body_json P r); simpl
    | |- context [get_prop ?v ?k] => destruct (get_prop v k); simpl
    end;
  eauto.

Lemma uploadDocument_requests (file : File) :
  retries_exactly_on_404 backend (uploadDocument (U:=U) P backend file)
    (ingest_request P API_VERSION file) (ingest_request P LEGACY_API file).
Proof.
  intros w. unfold uploadDocument, bind, fetch. answer_of_backend.
  - split; reflexivity.
  - destruct (status r =? 404) eqn:E404; simpl.
    + unfold fetch. answer_of_backend; [rest_is_local|].
      destruct (ok r0); simpl; rest_is_local.
    + destruct (ok r) eqn:Eok; simpl; split; rest_is_local; discriminate.
Qed.

Lemma sendChatMessage_requests (onContent onSources : js_value -> U -> U) (message : string) (history : list Message) :
  retries_exactly_on_404 backend
    (sendChatMessage P backend onContent onSources message history)
    (chat_request P API_VERSION message history) (chat_request P LEGACY_API message history).
Proof.
  intros w. unfold sendChatMessage, bind, fetch. answer_of_backend.
  - split; reflexivity.
  - destruct (status r =? 404) eqn:E404; simpl.
    + unfold fetch. answer_of_backend; [rest_is_local|].
      destruct (ok r0); simpl; [destruct (body r0); simpl|]; rest_is_local.
    + destruct (ok r) eqn:Eok; simpl; [destruct (body r); simpl|];
        split; rest_is_local; discriminate.
Qed.

Lemma listDocuments_requests :
  retries_exactly_on_404 backend (listDocuments (U:=U) P backend)
    (get_request (endpoint P API_VERSION "/documents"))
    (get_request (endpoint P LEGACY_API "/documents")).
Proof.
  intros w. unfold listDocuments, bind, fetch. answer_of_backend.
  - split; reflexivity.
  - destruct (status r =? 404) eqn:E404; simpl.
    + unfold fetch. answer_of_backend; [rest_is_local|].
      destruct (ok r0); simpl; rest_is_local.
    + destruct (ok r) eqn:Eok; simpl; split; rest_is_local; discriminate.
Qed.

Lemma deleteDocument_requests (documentId : string) :
  never_falls_back backend (deleteDocument (U:=U) P backend documentId)
    (delete_request P documentId).
Proof.
  intros w. unfold deleteDocument, bind, fetch. answer_of_backend.
  - split; [reflexivity|]. intros ? ? [=].
  - split.
    + destruct (ok r); simpl; rest_is_local.
    + intros r' s' [= <- <-] H404. rewrite (ok_404 _ H404). simpl. rest_is_local.
Qed.

Lemma getStats_requests :
  never_falls_back backend (getStats (U:=U) P backend)
    (get_request (endpoint P API_VERSION "/stats")).
Proof.
  intros w. unfold getStats, bind, fetch. answer_of_backend.
  - split; [reflexivity|]. intros ? ? [=].
  - split.
    + destruct (ok r); simpl; rest_is_local.
    + intros r' s' [= <- <-] H404. rewrite (ok_404 _ H404). simpl. rest_is_local.
Qed.

End Requests.

Section RequestLog.

Context (P : Platform) {St U : Type} (backend : Request -> St -> FetchResult * St).

Lemma retries_attempts {A} (op : Promise St U A) (v1 legacy : Request) :
  retries_exactly_on_404 backend op v1 legacy ->
  forall w, sent (snd (op w)) = sent w ++ attempts backend (server w) v1 legacy.
Proof.
  intros Hop w. specialize (Hop w). unfold attempts.
  destruct (backend v1 (server w)) as [[reason|r] s1].
  - apply Hop.
  - destruct (status r =? 404); [exact Hop | apply Hop].
Qed.

Lemma attempts_cases (s : St) (v1 legacy : Request) :
  attempts backend s v1 legacy = [v1] \/ attempts backend s v1 legacy = [v1; legacy].
Proof.
  unfold attempts. destruct (backend v1 s) as [[reason|r] s1]; [now left|].
  destruct (status r =? 404); [now right | now left].
Qed.

(** The second request is there exactly when the first one is answered
    with status 404. *)
Lemma attempts_legacy (s : St) (v1 legacy : Request) :
  attempts backend s v1 legacy = [v1; legacy]
  <-> exists r s1, backend v1 s = (Responded r, s1) /\ status r = 404.
Proof.
  unfold attempts. destruct (backend v1 s) as [[reason|r] s1].
  - split; [discriminate | intros (r & s' & [=] & _)].
  - destruct (status r =? 404) eqn:E.
    + split; [|reflexivity]. intros _. exists r, s1. split; [reflexivity | lia].
    + split; [discriminate|]. intros (r' & s' & [= -> ->] & H). lia.
Qed.

End RequestLog.

Lemma slice_last_length {A} (n : nat) (a : list A) : (length (Js.slice_last n a) <= n)%nat.
Proof. unfold Js.slice_last. rewrite length_drop. lia. Qed.

Lemma slice_last_suffix {A} (n : nat) (a : list A) : Js.slice_last n a `suffix_of` a.
Proof. apply suffix_drop. Qed.

Lemma slice_last_short {A} (n : nat) (a : list A) :
  (length a <= n)%nat -> Js.slice_last n a = a.
Proof.
  intros H. unfold Js.slice_last. replace (length a - n)%nat with 0%nat by lia. reflexivity.
Qed.

Lemma slice_last_long {A} (n : nat) (a : list A) :
  (n <= length a)%nat -> length (Js.slice_last n a) = n.
Proof. intros H. unfold Js.slice_last. rewrite length_drop. lia. Qed.

(** C1. Whatever the backend, the caller and the length of the history,
    every request [sendChatMessage] sends (the one to /api/v1/chat and, when
    that is answered 404, the one to /api/chat) has the same body: the
    encoding of the message with [history.slice(-10)], which has at most 10
    turns and is the end of the history, turns in their order (all of it when
    it has no more than 10 turns, exactly 10 when it has more). *)
Theorem chat_history_window
    (P : Platform) {St U : Type} (backend : Request -> St -> FetchResult * St)
    (onContent onSources : js_value -> U -> U)
    (message : string) (history : list Message) (w : World St U) :
  let window := Js.slice_last 10 history in
  let v1 := chat_request P API_VERSION message history in
  let legacy := chat_request P LEGACY_API message history in
  let requests := attempts backend (server w) v1 legacy in
  (length window <= 10)%nat
  /\ window `suffix_of` history
  /\ length window = Nat.min 10 (length history)
  /\ sent (snd (sendChatMessage P backend onContent onSources message history w))
     = sent w ++ requests
  /\ (requests = [v1] \/ requests = [v1; legacy])
  /\ req_url v1 = API_BASE_URL P +:+ "/api/v1/chat"
  /\ req_url legacy = API_BASE_URL P +:+ "/api/chat"
  /\ Forall (fun request =>
               req_body request
               = TextBody (JSON_stringify P (chat_payload message window)))
            requests.
Proof.
  intros window v1 legacy requests.
  split; [apply slice_last_length|].
  split; [apply slice_last_suffix|].
  split.
  { destruct (Nat.le_gt_cases (length history) 10) as [Hle|Hgt].
    - unfold window. rewrite slice_last_short by exact Hle. lia.
    - unfold window. rewrite slice_last_long by lia. lia. }
  split.
  { apply (retries_attempts backend). apply sendChatMessage_requests. }
  split; [apply attempts_cases|].
  split; [reflexivity|]. split; [reflexivity|].
  destruct (attempts_cases backend (server w) v1 legacy) as [E|E];
    unfold requests; rewrite E; repeat constructor.
Qed.

(** C9. The fallback is asymmetric.  [uploadDocument], [sendChatMessage] and
    [listDocuments] send the /api/v1 request and send the /api request next
    exactly when the first is answered with status 404; on any other status
    that is not ok they reject with the one request sent.  [deleteDocument]
    and [getStats] send the /api/v1 request only, and reject when it is
    answered 404. *)
Theorem fallback_is_asymmetric
    (P : Platform) {St U : Type} (backend : Request -> St -> FetchResult * St)
    (onContent onSources : js_value -> U -> U)
    (file : File) (message : string) (history : list Message) (documentId : string) :
  retries_exactly_on_404 backend (uploadDocument (U:=U) P backend file)
    (ingest_request P API_VERSION file) (ingest_request P LEGACY_API file)
  /\ retries_exactly_on_404 backend
       (sendChatMessage P backend onContent onSources message history)
       (chat_request P API_VERSION message history)
       (chat_request P LEGACY_API message history)
  /\ retries_exactly_on_404 backend (listDocuments (U:=U) P backend)
       (get_request (endpoint P API_VERSION "/documents"))
       (get_request (endpoint P LEGACY_API "/documents"))
  /\ never_falls_back backend (deleteDocument (U:=U) P backend documentId)
       (delete_request P documentId)
  /\ never_falls_back backend (getStats (U:=U) P backend)
       (get_request (endpoint P API_VERSION "/stats")).
Proof.
  refine (conj _ (conj _ (conj _ (conj _ _)))).
  - apply uploadDocument_requests.
  - apply sendChatMessage_requests.
  - apply listDocuments_requests.
  - apply deleteDocument_requests.
  - apply getStats_requests.
Qed.

(** ** The upload widget *)

Lemma MAX_SIZE_value : FileUpload.MAX_SIZE = 52428800.
Proof. reflexivity. Qed.

(** C8. [processFile] reaches the network only for a file whose name ends in
    ".pdf" whatever the case of its letters and whose size is at most
    50 * 1024 * 1024 bytes: then [uploadDocument] runs and its requests are
    sent.  For any other file no request is sent, the backend is left as it
    was, and one entry of status error is appended to the list for that file,
    with the message 'Only PDF files are supported' for a name that is not a
    PDF name and 'File size exceeds 50MB limit' for a PDF that is too large. *)
Theorem processFile_validates
    (P : Platform) {St : Type} (backend : Request -> St -> FetchResult * St)
    (file : File) (w : World St (list FileUpload.UploadedFile)) :
  let is_pdf := Js.endsWith ".pdf" (Js.toLowerCase (file_name file)) in
  let fits := file_size file <=? 50 * 1024 * 1024 in
  let after := snd (FileUpload.processFile P backend file w) in
  (is_pdf && fits = true ->
     sent after
     = sent w ++ attempts backend (server w)
                   (ingest_request P API_VERSION file) (ingest_request P LEGACY_API file)
     /\ sent after <> sent w)
  /\ (is_pdf && fits = false ->
        sent after = sent w
        /\ server after = server w
        /\ fst (FileUpload.processFile P backend file w) = Resolved tt
        /\ caller after
           = caller w
             ++ [{| FileUpload.name := file_name file;
                    FileUpload.upload_status := FileUpload.error;
                    FileUpload.message :=
                      Some (JStr (if is_pdf then "File size exceeds 50MB limit"
                                  else "Only PDF files are supported"));
                    FileUpload.chunks_created := None |}])
  /\ (sent after <> sent w -> is_pdf = true /\ file_size file <= 50 * 1024 * 1024).
Proof.
  intros is_pdf fits after.
  assert (Hrun : is_pdf && fits = true ->
                 sent after
                 = sent w ++ attempts backend (server w)
                     (ingest_request P API_VERSION file) (ingest_request P LEGACY_API file)).
  { intros Hacc. apply andb_prop in Hacc as [Hpdf Hfits].
    subst after. unfold FileUpload.processFile. fold is_pdf. rewrite Hpdf. simpl.
    replace (file_size file >? FileUpload.MAX_SIZE) with false
      by (unfold fits in Hfits; rewrite MAX_SIZE_value; lia).
    unfold bind, FileUpload.setFiles, call, catch. simpl.
    match goal with
    | |- context [uploadDocument P backend file ?w1] =>
        pose proof (retries_attempts backend _ _ _
                      (uploadDocument_requests P backend file) w1) as Hlog;
        destruct (uploadDocument P backend file w1) as [[result|err] w2]
    end; simpl in *; exact Hlog. }
  assert (Hstop : is_pdf && fits = false ->
                  FileUpload.processFile P backend file w
                  = (Resolved tt,
                     {| server := server w; sent := sent w;
                        caller := caller w
                          ++ [FileUpload.rejected_entry file
                                (if is_pdf then "File size exceeds 50MB limit"
                                 else "Only PDF files are supported")] |})).
  { intros Hrej. unfold FileUpload.processFile. fold is_pdf.
    destruct is_pdf; simpl in *; [|reflexivity].
    replace (file_size file >? FileUpload.MAX_SIZE) with true
      by (unfold fits in Hrej; rewrite MAX_SIZE_value; lia).
    reflexivity. }
  split; [|split].
  - intros Hacc. split; [auto|]. rewrite (Hrun Hacc).
    intros Heq. apply (f_equal length) in Heq. rewrite length_app in Heq.
    destruct (attempts_cases backend (server w)
                (ingest_request P API_VERSION file) (ingest_request P LEGACY_API file)) as [E|E];
      rewrite E in Heq; simpl in Heq; lia.
  - intros Hrej. subst after. rewrite (Hstop Hrej). simpl. auto.
  - intros Hsent. destruct (is_pdf && fits) eqn:Hacc.
    + apply andb_prop in Hacc as [-> Hfits]. split; [reflexivity|]. unfold fits in Hfits. lia.
    + exfalso. apply Hsent. subst after. rewrite (Hstop eq_refl). reflexivity.
Qed.

(** ** [trim] *)

Lemma trimStart_fixed (s : string) :
  match s with String c _ => Js.is_white_space c = false | EmptyString => True end ->
  Js.trimStart s = s.
Proof. destruct s as [|c r]; simpl; [reflexivity|]. intros ->. reflexivity. Qed.

Lemma trimStart_head (s : string) :
  match Js.trimStart s with
  | String c _ => Js.is_white_space c = false
  | EmptyString => True
  end.
Proof.
  induction s as [|c r IH]; simpl; [exact I|].
  destruct (Js.is_white_space c) eqn:E; [exact IH | exact E].
Qed.

Lemma trimEnd_head (s : string) :
  match s with String c _ => Js.is_white_space c = false | EmptyString => True end ->
  match Js.trimEnd s with
  | String c _ => Js.is_white_space c = false
  | EmptyString => True
  end.
Proof.
  destruct s as [|c r]; simpl; [trivial|]. intros Hc.
  destruct (Js.trimEnd r); [rewrite Hc|]; exact Hc.
Qed.

Lemma trimEnd_idempotent (s : string) : Js.trimEnd (Js.trimEnd s) = Js.trimEnd s.
Proof.
  induction s as [|c r IH]; simpl; [reflexivity|].
  destruct (Js.trimEnd r) as [|d r'] eqn:E.
  - destruct (Js.is_white_space c) eqn:Ec; simpl; [reflexivity|]. rewrite Ec. reflexivity.
  - change (Js.trimEnd (String c (String d r')) = String c (String d r')).
    simpl. simpl in IH. rewrite IH. reflexivity.
Qed.

Lemma trim_idempotent (s : string) : Js.trim (Js.trim s) = Js.trim s.
Proof.
  unfold Js.trim.
  rewrite (trimStart_fixed (Js.trimEnd (Js.trimStart s))).
  - apply trimEnd_idempotent.
  - apply trimEnd_head, trimStart_head.
Qed.

Lemma truthy_string_nonempty (s : string) : Js.truthy_string s = true <-> s <> "".
Proof. destruct s; simpl; split; congruence. Qed.

(** ** What the stream does to the caller *)

Section CallerInvariant.

Context (P : Platform) {St U : Type} (backend : Request -> St -> FetchResult * St).
Context (onContent onSources : js_value -> U -> U).
Context (Inv : U -> Prop).
Hypothesis content_keeps : forall chunk u, Inv u -> Inv (onContent chunk u).
Hypothesis sources_keeps : forall names u, Inv u -> Inv (onSources names u).

Lemma dispatch_keeps (payload : string) (u : U) :
  Inv u -> Inv (dispatch P onContent onSources payload u).
Proof.
  intros Hu. unfold dispatch.
  destruct (JSON_parse P payload) as [data|]; [|exact Hu].
  destruct (get_prop data "type") as [e|type]; [exact Hu|].
  unfold pass_data.
  destruct (strict_eq_string type "content");
    [destruct (get_prop data "data"); auto|].
  destruct (strict_eq_string type "sources");
    [destruct (get_prop data "data"); auto|].
  destruct (strict_eq_string type "done"); exact Hu.
Qed.

Lemma handle_chunk_keeps (text : string) (u : U) :
  Inv u -> Inv (handle_chunk P onContent onSources text u).
Proof.
  unfold handle_chunk. generalize (lines_of text). intros lines. revert u.
  induction lines as [|line rest IH]; intros u Hu; simpl; [exact Hu|].
  apply IH. unfold handle_line.
  destruct (Js.startsWith "data: " line); [apply dispatch_keeps|]; exact Hu.
Qed.

Lemma chunks_keep (pending : list string) (u : U) :
  Inv u ->
  Inv (fold_left (fun u text => handle_chunk P onContent onSources text u) pending u).
Proof.
  revert u. induction pending as [|text rest IH]; intros u Hu; simpl; [exact Hu|].
  apply IH, handle_chunk_keeps, Hu.
Qed.

Lemma sendChatMessage_keeps (message : string) (history : list Message) (w : World St U) :
  Inv (caller w) ->
  Inv (caller (snd (sendChatMessage P backend onContent onSources message history w))).
Proof.
  intros Hw. unfold sendChatMessage, bind, fetch.
  destruct (backend _ (server w)) as [[reason|r] s1]; simpl; [exact Hw|].
  assert (Hrest : forall (r' : Response) (w' : World St U), Inv (caller w') ->
            Inv (caller (snd ((if negb (ok r')
                               then throw_api_error P r' "Chat failed" "Failed to get response"
                               else match body r' with
                                    | Some reader =>
                                        read_loop P onContent onSources
                                          (chunks reader) (ending reader)
                                    | None => throw (Error "No response body")
                                    end) w')))).
  { intros r' w' Hw'. destruct (negb (ok r')).
    - rewrite throw_api_error_run. exact Hw'.
    - destruct (body r') as [reader|]; [|exact Hw'].
      rewrite read_loop_run. simpl. apply chunks_keep, Hw'. }
  destruct (status r =? 404); simpl.
  - unfold fetch. simpl. destruct (backend _ s1) as [[reason|r2] s2]; simpl; [exact Hw|].
    apply Hrest. exact Hw.
  - apply Hrest. exact Hw.
Qed.

End CallerInvariant.

(** ** The chat page *)

Section PageFacts.

Context (P : Platform) {St : Type} (backend : Request -> St -> FetchResult * St).

Lemma handleSubmit_guarded_under (reruns : nat) (w : World St Page.State) :
  Js.trim (Page.input (caller w)) = "" \/ Page.isLoading (caller w) = true ->
  Page.handleSubmit_under P backend reruns w = (Resolved tt, w).
Proof.
  intros Hguard. unfold Page.handleSubmit_under.
  destruct Hguard as [-> | ->]; simpl; [reflexivity|].
  rewrite orb_true_r. reflexivity.
Qed.

Lemma handleSubmit_guarded (w : World St Page.State) :
  Js.trim (Page.input (caller w)) = "" \/ Page.isLoading (caller w) = true ->
  Page.handleSubmit P backend w = (Resolved tt, w).
Proof. apply handleSubmit_guarded_under. Qed.

Lemma pending_reached (s : Page.State) :
  Page.setMessages (fun prev => prev ++ [{| role := assistant; content := "" |}])
    (Page.setSources (Some (JArr []))
       (Page.setError None
          (Page.setIsLoading true
             (Page.setInput ""
                (Page.setMessages
                   (fun prev => prev ++ [{| role := user; content := Js.trim (Page.input s) |}])
                   s)))))
  = Page.pending s.
Proof.
  unfold Page.pending, Page.setMessages, Page.setSources, Page.setError,
    Page.setIsLoading, Page.setInput. simpl.
  rewrite <- app_assoc. reflexivity.
Qed.

Lemma handleSubmit_run_under (reruns : nat) (w : World St Page.State) :
  Js.trim (Page.input (caller w)) <> "" -> Page.isLoading (caller w) = false ->
  Page.handleSubmit_under P backend reruns w
  = match Page.the_chat_under P backend reruns w with
    | (Resolved _, w2) =>
        (Resolved tt, Page.with_caller w2 (Page.setIsLoading false (caller w2)))
    | (Rejected err, w2) =>
        (Resolved tt,
         Page.with_caller w2
           (Page.setIsLoading false
              (Page.setMessages Page.drop_empty
                 (Page.setError (Some (message_of err)) (caller w2)))))
    end.
Proof.
  intros Hinput Hidle. unfold Page.handleSubmit_under.
  apply truthy_string_nonempty in Hinput. rewrite Hinput, Hidle. simpl.
  unfold bind, call, catch. simpl.
  rewrite pending_reached. unfold Page.the_chat_under, Page.in_flight.
  match goal with
  | |- context [sendChatMessage ?a ?b ?c ?d ?e ?f ?g] =>
      destruct (sendChatMessage a b c d e f g) as [[[]|err] w2]
  end; reflexivity.
Qed.

Lemma handleSubmit_run (w : World St Page.State) :
  Js.trim (Page.input (caller w)) <> "" -> Page.isLoading (caller w) = false ->
  Page.handleSubmit P backend w
  = match Page.the_chat P backend w with
    | (Resolved _, w2) =>
        (Resolved tt, Page.with_caller w2 (Page.setIsLoading false (caller w2)))
    | (Rejected err, w2) =>
        (Resolved tt,
         Page.with_caller w2
           (Page.setIsLoading false
              (Page.setMessages Page.drop_empty
                 (Page.setError (Some (message_of err)) (caller w2)))))
    end.
Proof. exact (handleSubmit_run_under 0 w). Qed.

Lemma append_to_last_users (chunk : js_value) (prev : list Message) :
  Forall Page.user_ok prev -> Forall Page.user_ok (Page.append_to_last chunk prev).
Proof.
  induction prev as [|m rest IH]; intros Hprev; [constructor|].
  inversion Hprev as [|? ? Hm Hrest]; subst.
  destruct rest as [|m' rest'].
  - simpl. destruct (role m) eqn:Hrole.
    + constructor; [exact Hm | constructor].
    + constructor; [|constructor]. intros Huser. discriminate.
  - change (Forall Page.user_ok (m :: Page.append_to_last chunk (m' :: rest'))).
    constructor; [exact Hm | apply IH, Hrest].
Qed.

Lemma append_to_last_keeps_user (chunk : js_value) (text : string) (prev : list Message) :
  In {| role := user; content := text |} prev ->
  In {| role := user; content := text |} (Page.append_to_last chunk prev).
Proof.
  induction prev as [|m rest IH]; intros Hin; [contradiction|].
  destruct rest as [|m' rest'].
  - destruct Hin as [->|[]]. simpl. left. reflexivity.
  - change (In {| role := user; content := text |}
               (m :: Page.append_to_last chunk (m' :: rest'))).
    destruct Hin as [->|Hin]; [left; reflexivity | right; apply IH, Hin].
Qed.

Lemma drop_empty_nonempty (prev : list Message) :
  Forall (fun m => content m <> "") (Page.drop_empty prev).
Proof.
  unfold Page.drop_empty. apply List.Forall_forall. intros m Hm.
  apply List.filter_In in Hm as [_ Hm]. apply truthy_string_nonempty, Hm.
Qed.

Lemma drop_empty_users (prev : list Message) :
  Forall Page.user_ok prev -> Forall Page.user_ok (Page.drop_empty prev).
Proof.
  unfold Page.drop_empty. rewrite !List.Forall_forall. intros Hprev m Hm.
  apply List.filter_In in Hm as [Hm _]. apply Hprev, Hm.
Qed.

Lemma drop_empty_keeps (m : Message) (prev : list Message) :
  content m <> "" -> In m prev -> In m (Page.drop_empty prev).
Proof.
  intros Hne Hin. unfold Page.drop_empty. apply List.filter_In. split; [exact Hin|].
  apply truthy_string_nonempty, Hne.
Qed.

Lemma the_chat_keeps (Inv : list Message -> Prop) (w : World St Page.State) :
  (forall chunk prev, Inv prev -> Inv (Page.append_to_last chunk prev)) ->
  Inv (Page.messages (Page.pending (caller w))) ->
  Inv (Page.messages (caller (snd (Page.the_chat P backend w)))).
Proof.
  intros Hstep Hstart. unfold Page.the_chat.
  apply (sendChatMessage_keeps P backend Page.onContent Page.onSources
           (fun s => Inv (Page.messages s))).
  - intros chunk u Hu. simpl. apply Hstep, Hu.
  - intros names u Hu. exact Hu.
  - exact Hstart.
Qed.

Lemma runs_keep (Inv : list Message -> Prop) (chunk : js_value) (runs : nat)
    (prev : list Message) :
  (forall chunk prev, Inv prev -> Inv (Page.append_to_last chunk prev)) ->
  Inv prev -> Inv (Nat.iter runs (Page.append_to_last chunk) prev).
Proof.
  intros Hstep Hprev. induction runs as [|fewer IH]; [exact Hprev|].
  simpl. apply Hstep, IH.
Qed.

Lemma the_chat_keeps_under (Inv : list Message -> Prop) (reruns : nat)
    (w : World St Page.State) :
  (forall chunk prev, Inv prev -> Inv (Page.append_to_last chunk prev)) ->
  Inv (Page.messages (Page.pending (caller w))) ->
  Inv (Page.messages (caller (snd (Page.the_chat_under P backend reruns w)))).
Proof.
  intros Hstep Hstart. unfold Page.the_chat_under.
  apply (sendChatMessage_keeps P backend (Page.onContent_under reruns) Page.onSources
           (fun s => Inv (Page.messages s))).
  - intros chunk u Hu. unfold Page.onContent_under, Page.setMessages.
    cbn [Page.messages]. apply (runs_keep Inv chunk (S reruns)); assumption.
  - intros names u Hu. exact Hu.
  - exact Hstart.
Qed.

End PageFacts.

(** The no-break space is white space for [trim], alone or around a word. *)
Example trim_strips_no_break_space :
  let nbsp := String (ascii_of_nat 160) "" in
  Js.trim nbsp = ""
  /\ Js.trim (" hi" +:+ nbsp) = "hi"
  /\ Js.trim (nbsp +:+ "a" +:+ nbsp +:+ "b ") = "a" +:+ nbsp +:+ "b".
Proof. vm_compute. auto. Qed.

(** C10. The conversation of the chat page keeps every user message well
    formed: its content is not empty and is trimmed, so that what [trim]
    leaves of it is not empty.  No message is there at the start.
    [handleSubmit] does nothing at all when the trimmed input is empty
    (white space only, the no-break space included) or a request is in
    flight; otherwise the user message it appends has the trimmed input as
    content and stays in the list, the user messages stay well formed
    whatever the backend streams or fails with, and when the request fails
    the error is shown and no message of empty content (the assistant
    placeholder) is left in the list.  This holds however many times React
    reruns the updaters ([reruns] is 0 in a production build): the updater
    of the streaming callback changes a message of the assistant only. *)
Theorem user_messages_never_empty
    (P : Platform) {St : Type} (backend : Request -> St -> FetchResult * St)
    (reruns : nat) (w : World St Page.State) :
  let trimmed := Js.trim (Page.input (caller w)) in
  let busy := Page.isLoading (caller w) in
  let run := Page.handleSubmit_under P backend reruns w in
  let after := caller (snd run) in
  Forall Page.user_ok (Page.messages Page.initial)
  /\ (forall m, Page.user_ok m -> role m = user -> Js.trim (content m) <> "")
  /\ (trimmed = "" \/ busy = true -> run = (Resolved tt, w))
  /\ (trimmed <> "" /\ busy = false ->
        In {| role := user; content := trimmed |} (Page.messages after)
        /\ Page.isLoading after = false)
  /\ (Forall Page.user_ok (Page.messages (caller w)) ->
      Forall Page.user_ok (Page.messages after))
  /\ (trimmed <> "" /\ busy = false ->
      forall err, fst (Page.the_chat_under P backend reruns w) = Rejected err ->
        Page.error after = Some (message_of err)
        /\ Forall (fun m => content m <> "") (Page.messages after)).
Proof.
  intros trimmed busy run after.
  split; [constructor|].
  split; [intros m Hm Hrole; destruct (Hm Hrole) as [Hne Htrim]; rewrite Htrim; exact Hne|].
  split; [apply handleSubmit_guarded_under|].
  assert (Hmine : trimmed <> "" ->
                  Page.user_ok {| role := user; content := trimmed |}).
  { intros Hne _. split; [exact Hne | apply trim_idempotent]. }
  split; [|split].
  - intros [Hne Hidle]. subst after run. rewrite handleSubmit_run_under by assumption.
    pose proof (the_chat_keeps_under P backend
                  (fun l => In {| role := user; content := trimmed |} l) reruns w
                  (fun chunk prev => append_to_last_keeps_user chunk trimmed prev)) as Hkept.
    destruct (Page.the_chat_under P backend reruns w) as [[[]|err] w2]; simpl in *.
    + split; [|reflexivity]. apply Hkept. apply in_or_app. right. left. reflexivity.
    + split; [|reflexivity]. apply drop_empty_keeps; [exact Hne|].
      apply Hkept. apply in_or_app. right. left. reflexivity.
  - intros Hbefore. subst after run.
    destruct (string_dec trimmed "") as [Hempty|Hne];
      [rewrite handleSubmit_guarded_under by (left; exact Hempty); exact Hbefore|].
    destruct busy eqn:Hbusy;
      [rewrite handleSubmit_guarded_under by (right; exact Hbusy); exact Hbefore|].
    rewrite handleSubmit_run_under by assumption.
    pose proof (the_chat_keeps_under P backend (Forall Page.user_ok) reruns w
                  append_to_last_users) as Hkept.
    assert (Hstart : Forall Page.user_ok (Page.messages (Page.pending (caller w)))).
    { simpl. apply Forall_app. split; [exact Hbefore|].
      constructor; [apply Hmine, Hne|]. constructor; [intros [=] | constructor]. }
    specialize (Hkept Hstart).
    destruct (Page.the_chat_under P backend reruns w) as [[[]|err] w2]; simpl in *.
    + exact Hkept.
    + apply drop_empty_users, Hkept.
  - intros [Hne Hidle] err Hfail. subst after run.
    rewrite handleSubmit_run_under by assumption.
    destruct (Page.the_chat_under P backend reruns w) as [[[]|err'] w2]; simpl in *;
      [discriminate|].
    injection Hfail as ->. split; [reflexivity | apply drop_empty_nonempty].
Qed.

(** ** The chunker *)

Section ChunkerFacts.

Local Open Scope nat_scope.

Lemma substring_whole (s : string) (m : nat) :
  String.length s <= m -> String.substring 0 m s = s.
Proof.
  revert m. induction s as [|c r IH]; intros m Hm.
  - destruct m; reflexivity.
  - destruct m as [|m']; simpl in *; [lia|]. rewrite IH by lia. reflexivity.
Qed.

Lemma ceil_div_zero (b : nat) : 0 < b -> Chunker.ceil_div 0 b = 0.
Proof. intros Hb. unfold Chunker.ceil_div. apply Nat.div_small. lia. Qed.

Lemma ceil_div_step (a b : nat) :
  0 < b -> 0 < a -> Chunker.ceil_div a b = S (Chunker.ceil_div (a - b) b).
Proof.
  intros Hb Ha. unfold Chunker.ceil_div.
  destruct (Nat.le_gt_cases b a) as [Hle|Hlt].
  - replace (a + b - 1) with ((a - b + b - 1) + 1 * b) by lia.
    rewrite Nat.div_add by lia. lia.
  - replace (a - b) with 0 by lia. simpl.
    rewrite (Nat.div_small (b - 1) b) by lia.
    replace (a + b - 1) with ((a - 1) + 1 * b) by lia.
    rewrite Nat.div_add by lia. rewrite Nat.div_small by lia. reflexivity.
Qed.

(** With fuel beyond the distance left to the end of the text, the walk
    from [start] has one window and one more per step still needed. *)
Lemma windows_length (text : string) (size step : nat) :
  0 < step ->
  forall fuel start,
    String.length text - (start + size) < fuel ->
    length (Chunker.windows fuel text start size step)
    = S (Chunker.ceil_div (String.length text - (start + size)) step).
Proof.
  intros Hstep. induction fuel as [|fuel IH]; intros start Hfuel; [lia|].
  simpl. destruct (String.length text <=? start + size) eqn:Hend.
  - apply Nat.leb_le in Hend. simpl.
    replace (String.length text - (start + size)) with 0 by lia.
    rewrite ceil_div_zero by exact Hstep. reflexivity.
  - apply Nat.leb_gt in Hend. simpl. rewrite IH by lia.
    rewrite (ceil_div_step (String.length text - (start + size)) step) by lia.
    replace (String.length text - (start + step + size))
      with (String.length text - (start + size) - step) by lia.
    reflexivity.
Qed.

End ChunkerFacts.

(** C4. The chunker rejects [overlap >= size] before it looks at the text.
    For [overlap < size] it yields no segment for the empty text, the text
    itself as the one segment when its length is at most [size], and exactly
    [ceil((len - overlap) / (size - overlap))] segments when the text is
    longer than [size]. *)
Theorem chunk_count (text : string) (size overlap : nat) :
  let len := String.length text in
  ((size <= overlap)%nat ->
     Chunker.chunk_text text size overlap = inl Chunker.OverlapNotBelowSize)
  /\ ((overlap < size)%nat ->
      exists segments,
        Chunker.chunk_text text size overlap = inr segments
        /\ (len = 0%nat -> segments = [])
        /\ ((0 < len <= size)%nat -> segments = [text])
        /\ ((size < len)%nat ->
            length segments = Chunker.ceil_div (len - overlap) (size - overlap))).
Proof.
  intros len. unfold Chunker.chunk_text. split.
  - intros Hbad. apply Nat.leb_le in Hbad. rewrite Hbad. reflexivity.
  - intros Hvalid. replace (size <=? overlap)%nat with false
      by (symmetry; apply Nat.leb_gt; exact Hvalid).
    destruct text as [|c r] eqn:Etext.
    + exists []. repeat split; simpl in *; intros; try reflexivity; lia.
    + rewrite <- Etext. exists (Chunker.windows (String.length text) text 0 size (size - overlap)).
      assert (Hlen : len = String.length text) by (subst; reflexivity).
      assert (Hpos : (0 < String.length text)%nat) by (subst; simpl; lia).
      split; [reflexivity|]. split; [lia|]. split.
      * intros [_ Hshort]. destruct (String.length text) as [|fuel] eqn:Efuel; [lia|].
        simpl. rewrite Efuel. replace (S fuel <=? size)%nat with true
          by (symmetry; apply Nat.leb_le; lia).
        rewrite substring_whole by lia. reflexivity.
      * intros Hlong. rewrite windows_length by lia.
        rewrite <- Hlen. simpl.
        rewrite (ceil_div_step (len - overlap) (size - overlap)) by lia.
        replace (len - overlap - (size - overlap))%nat with (len - (0 + size))%nat by lia.
        reflexivity.
Qed.

(** The example of section 8 of the design document: 2500 characters with
    size 1000 and overlap 200 are 3 segments, of 1000, 1000 and 900
    characters, starting at 0, 800 and 1600. *)
Example chunk_text_2500 :
  let text := String.concat "" (repeat "0123456789" 250) in
  String.length text = 2500%nat
  /\ match Chunker.chunk_text text 1000 200 with
     | inr segments =>
         map String.length segments = [1000; 1000; 900]%nat
         /\ segments = [String.substring 0 1000 text; String.substring 800 1000 text;
                        String.substring 1600 1000 text]
     | inl _ => False
     end.
Proof. vm_compute. auto. Qed.

(** ** How an operation ends, by the response it goes on with *)

Section Outcomes.

Context (P : Platform) {St U : Type} (backend : Request -> St -> FetchResult * St).

Lemma uploadDocument_outcome (file : File) (w : World St U) :
  match final_response backend (server w)
          (ingest_request P API_VERSION file) (ingest_request P LEGACY_API file) with
  | Some r =>
      fst (uploadDocument P backend file w)
      = settle P r "Upload failed" "Failed to upload document"
  | None =>
      exists reason, fst (uploadDocument P backend file w) = Rejected (TypeError reason)
  end.
Proof.
  unfold final_response, uploadDocument, bind, fetch, settle.
  destruct (backend _ (server w)) as [[reason|r] s1]; simpl; [eauto|].
  destruct (status r =? 404); simpl.
  - unfold fetch. simpl. destruct (backend _ s1) as [[reason|r2] s2]; simpl; [eauto|].
    destruct (ok r2); simpl;
      [rewrite response_json_run | rewrite throw_api_error_run]; reflexivity.
  - destruct (ok r); simpl;
      [rewrite response_json_run | rewrite throw_api_error_run]; reflexivity.
Qed.

Lemma deleteDocument_outcome (documentId : string) (w : World St U) :
  match backend (delete_request P documentId) (server w) with
  | (Responded r, _) =>
      fst (deleteDocument P backend documentId w)
      = settle P r "Failed to delete document" "Failed to delete document"
  | (NetworkFailure reason, _) =>
      fst (deleteDocument P backend documentId w) = Rejected (TypeError reason)
  end.
Proof.
  unfold deleteDocument, bind, fetch, settle.
  destruct (backend _ (server w)) as [[reason|r] s1]; simpl; [reflexivity|].
  destruct (ok r); simpl;
    [rewrite response_json_run | rewrite throw_api_error_run]; reflexivity.
Qed.


(** The message of the error for a response that is not ok. *)

Lemma api_error_detail (r : Response) (f1 f2 : string) fields (detail : string) :
  body_json P r = inr (JObj fields) ->
  lookup_field "detail" fields = Some (JStr detail) -> detail <> "" ->
  api_error P r f1 f2 = Error detail.
Proof.
  intros Hbody Hdetail Hne. unfold api_error. rewrite Hbody. simpl. rewrite Hdetail.
  unfold js_or. simpl. apply truthy_string_nonempty in Hne. rewrite Hne. reflexivity.
Qed.

Lemma api_error_unparseable (r : Response) (f1 f2 : string) (e : JsError) :
  body_json P r = inl e -> f1 <> "" -> api_error P r f1 f2 = Error f1.
Proof.
  intros Hbody Hne. unfold api_error. rewrite Hbody. simpl.
  unfold js_or. simpl. apply truthy_string_nonempty in Hne. rewrite Hne. reflexivity.
Qed.

Lemma api_error_no_detail (r : Response) (f1 f2 : string) fields :
  body_json P r = inr (JObj fields) ->
  truthy (lookup_field "detail" fields) = false ->
  api_error P r f1 f2 = Error f2.
Proof.
  intros Hbody Hdetail. unfold api_error. rewrite Hbody. simpl.
  unfold js_or. rewrite Hdetail. reflexivity.
Qed.

(** The error for a response that is not ok, case by case on its body. *)
Lemma api_error_cases (r : Response) (f1 f2 : string) :
  f1 <> "" ->
  let error := api_error P r f1 f2 in
  (forall e, body_json P r = inl e -> error = Error f1)
  /\ (body_json P r = inr JNull ->
        error = TypeError "Cannot read properties of null (reading 'detail')")
  /\ (forall v, body_json P r = inr v -> v <> JNull -> truthy (detail_of v) = false ->
        error = Error f2)
  /\ (forall v detail,
        body_json P r = inr v -> detail_of v = Some detail -> truthy (Some detail) = true ->
        prints_in_digits detail = true ->
        error = Error (to_String detail))
  /\ (forall fields text,
        body_json P r = inr (JObj fields) ->
        lookup_field "detail" fields = Some (JStr text) -> text <> "" ->
        error = Error text).
Proof.
  intros Hf1 error. subst error. split; [|split; [|split; [|split]]].
  - intros e Hbody. exact (api_error_unparseable r f1 f2 e Hbody Hf1).
  - intros Hbody. unfold api_error. rewrite Hbody. reflexivity.
  - intros v Hbody Hv Hfalsy. unfold api_error. rewrite Hbody.
    destruct v; try contradiction; simpl in *; unfold js_or; simpl;
      try reflexivity.
    rewrite Hfalsy. reflexivity.
  - intros v detail Hbody Hdetail Htruthy _. unfold api_error. rewrite Hbody.
    destruct v; try discriminate Hdetail. unfold detail_of in Hdetail.
    cbn [get_prop]. rewrite Hdetail. unfold js_or. rewrite Htruthy. reflexivity.
  - intros fields text. apply api_error_detail.
Qed.

(** What [response.json()] rejects with is an error of the platform. *)
Lemma body_json_error (r : Response) (e : JsError) :
  body_json P r = inl e -> forall m, e <> Error m.
Proof.
  unfold body_json. intros Hbody m ->.
  destruct (body r) as [s|].
  - destruct (ending s); [|discriminate].
    destruct (JSON_parse P _); discriminate.
  - destruct (JSON_parse P _); discriminate.
Qed.

(** The error made from a response differs from what reading its body as
    JSON can reject with, when that body does not parse. *)
Lemma api_error_not_parse_error (r : Response) (f1 f2 : string) (e : JsError) :
  body_json P r = inl e -> Rejected (A:=json) e <> Rejected (api_error P r f1 f2).
Proof.
  intros Hbody Heq. unfold api_error in Heq. rewrite Hbody in Heq. simpl in Heq.
  injection Heq as Heq. exact (body_json_error r e Hbody _ Heq).
Qed.

End Outcomes.

(** ** The vector store *)

Section StoreFacts.

Import VectorStore.

Lemma owned_by_spec (id : string) (c : ChunkRow) :
  owned_by id c = true <-> document_id c = id.
Proof. unfold owned_by. apply String.eqb_eq. Qed.

Lemma split_by_owner (id : string) (l : list ChunkRow) :
  length l
  = (length (List.filter (owned_by id) l)
     + length (List.filter (fun c => negb (owned_by id c)) l))%nat.
Proof.
  induction l as [|c rest IH]; simpl; [reflexivity|].
  destruct (owned_by id c); simpl; lia.
Qed.

Lemma delete_document_missing (id : string) (s : Store) :
  documents s !! id = None -> delete_document id s = inl (NotFoundError id).
Proof. intros H. unfold delete_document. rewrite H. reflexivity. Qed.

Lemma delete_document_present (id : string) (s : Store) :
  is_Some (documents s !! id) ->
  exists result s',
    delete_document id s = inr (result, s')
    /\ deleted_id result = id
    /\ chunks_deleted result = length (List.filter (owned_by id) (chunks s))
    /\ documents s' !! id = None
    /\ Forall (fun c => document_id c <> id) (chunks s')
    /\ (forall other, other <> id -> documents s' !! other = documents s !! other)
    /\ chunks s' = List.filter (fun c => negb (owned_by id c)) (chunks s)
    /\ length (chunks s) = (chunks_deleted result + length (chunks s'))%nat
    /\ (no_orphans s -> no_orphans s').
Proof.
  intros [row Hrow]. unfold delete_document. rewrite Hrow.
  eexists _, _. split; [reflexivity|]. simpl.
  split; [reflexivity|]. split; [reflexivity|].
  split; [apply lookup_delete_eq|].
  split.
  { apply List.Forall_forall. intros c Hc. apply List.filter_In in Hc as [_ Hc].
    intros Hid. apply owned_by_spec in Hid. rewrite Hid in Hc. discriminate. }
  split; [intros other Hother; apply lookup_delete_ne; congruence|].
  split; [reflexivity|].
  split; [apply split_by_owner|].
  unfold no_orphans. simpl. rewrite !List.Forall_forall. intros Hkept c Hc.
  apply List.filter_In in Hc as [Hin Hc].
  rewrite lookup_delete_ne; [apply Hkept, Hin|].
  intros Hid. symmetry in Hid. apply owned_by_spec in Hid. rewrite Hid in Hc. discriminate.
Qed.

End StoreFacts.



(** C5 as amended.  [uploadDocument] never resolves with a response that is
    not ok.  It resolves exactly when the response it ends with (the one of
    /api/v1/ingest or, after a 404, the one of /api/ingest) is ok and its
    body parses, and then to the parsed body as it is, unchecked: to the
    record of the backend (document id, file name, number of chunks,
    message) when that is what the body holds.  When the response it ends
    with is not ok it rejects with the error made from the body: an [Error]
    whose message is the detail of the server when the body is an object
    whose detail is a non-empty string, [Error('Upload failed')] when the
    body cannot be read or does not parse, [Error('Failed to upload
    document')] when the body is not [null] and its detail is missing or
    falsy.  Besides these two ends there is a third one: when a fetch fails
    it rejects with the error of [fetch], and when the body of a response
    that is ok cannot be read or does not parse, with the error of reading
    or parsing it.  The statement also records two cases beside these: a
    body that is [null] gives a [TypeError], and a detail that is truthy and
    not a string gives [Error(String(detail))] (shown for the numbers
    [String] prints in digits). *)
Theorem uploadDocument_ends
    (P : Platform) {St U : Type} (backend : Request -> St -> FetchResult * St)
    (file : File) (w : World St U) :
  let outcome := fst (uploadDocument P backend file w) in
  let final := final_response backend (server w)
                 (ingest_request P API_VERSION file) (ingest_request P LEGACY_API file) in
  (forall v, outcome = Resolved v
             <-> exists r, final = Some r /\ ok r = true /\ body_json P r = inr v)
  /\ (forall r, final = Some r -> ok r = false ->
        outcome = Rejected (api_error P r "Upload failed" "Failed to upload document"))
  /\ (final = None -> exists reason, outcome = Rejected (TypeError reason))
  /\ (forall r e, final = Some r -> ok r = true -> body_json P r = inl e ->
        outcome = Rejected e)
  /\ (resolved_or_refused P outcome final "Upload failed" "Failed to upload document"
      \/ (final = None /\ exists reason, outcome = Rejected (TypeError reason))
      \/ (exists r e, final = Some r /\ ok r = true /\ body_json P r = inl e
                      /\ outcome = Rejected e))
  /\ (forall r,
        let error := api_error P r "Upload failed" "Failed to upload document" in
        (forall e, body_json P r = inl e -> error = Error "Upload failed")
        /\ (body_json P r = inr JNull ->
            error = TypeError "Cannot read properties of null (reading 'detail')")
        /\ (forall v, body_json P r = inr v -> v <> JNull ->
              truthy (detail_of v) = false -> error = Error "Failed to upload document")
        /\ (forall v detail,
              body_json P r = inr v -> detail_of v = Some detail ->
              truthy (Some detail) = true -> prints_in_digits detail = true ->
              error = Error (to_String detail))
        /\ (forall fields text,
              body_json P r = inr (JObj fields) ->
              lookup_field "detail" fields = Some (JStr text) -> text <> "" ->
              error = Error text)).
Proof.
  intros outcome final.
  pose proof (uploadDocument_outcome P backend file w) as Hend.
  fold final in Hend. fold outcome in Hend.
  split; [|split; [|split; [|split; [|split]]]].
  - intros v. split.
    + intros Hv. destruct final as [r|]; [|destruct Hend as [reason Hend]; congruence].
      exists r. split; [reflexivity|]. rewrite Hend in Hv. unfold settle in Hv.
      destruct (ok r); [|discriminate]. split; [reflexivity|].
      destruct (body_json P r); congruence.
    + intros (r & Hr & Hok & Hbody). rewrite Hr in Hend. rewrite Hend.
      unfold settle. rewrite Hok, Hbody. reflexivity.
  - intros r Hr Hbad. rewrite Hr in Hend. rewrite Hend. unfold settle. rewrite Hbad. reflexivity.
  - intros Hnone. rewrite Hnone in Hend. exact Hend.
  - intros r e Hr Hok Hbody. rewrite Hr in Hend. rewrite Hend.
    unfold settle. rewrite Hok, Hbody. reflexivity.
  - destruct final as [r|]; [|right; left; auto].
    rewrite Hend. unfold settle. destruct (ok r) eqn:Hok.
    + destruct (body_json P r) as [e|v] eqn:Hbody.
      * right. right. exists r, e. auto.
      * left. left. eauto.
    + left. right. exists r. auto.
  - intros r. apply api_error_cases. discriminate.
Qed.

(** C5 as stated fails.  With the backend out of reach the operation rejects
    with the error of [fetch], and with a response that is ok but whose body
    is not JSON it rejects with the error of the parser: in neither case is
    it resolved, or rejected with an error made from a response that is not
    ok.  A response that is ok with the body [{}] resolves to that object,
    which is no record of an ingestion.  And the error for a response that
    is not ok need not carry a detail of the server: a detail that is a list
    of objects gives the message '[object Object]', a body that is [null]
    gives a [TypeError], and a body without detail gives the message of the
    client. *)
Lemma uploadDocument_third_end :
  let upload answer :=
    fst (uploadDocument Demo.errors_platform (Demo.always answer) Demo.paper
           (Demo.start tt tt)) in
  let answered code text := Responded {| status := code; body := Demo.closed [text] |} in
  let v1 := ingest_request Demo.errors_platform API_VERSION Demo.paper in
  let legacy := ingest_request Demo.errors_platform LEGACY_API Demo.paper in
  upload (NetworkFailure "Failed to fetch") = Rejected (TypeError "Failed to fetch")
  /\ ~ resolved_or_refused Demo.errors_platform
         (upload (NetworkFailure "Failed to fetch"))
         (final_response (Demo.always (NetworkFailure "Failed to fetch")) tt v1 legacy)
         "Upload failed" "Failed to upload document"
  /\ upload (answered 200 "<html></html>") = Rejected (SyntaxError "Unexpected token")
  /\ ~ resolved_or_refused Demo.errors_platform
         (upload (answered 200 "<html></html>"))
         (final_response (Demo.always (answered 200 "<html></html>")) tt v1 legacy)
         "Upload failed" "Failed to upload document"
  /\ upload (answered 200 "{}") = Resolved (JObj [])
  /\ as_IngestResponse (JObj []) = None
  /\ upload (Responded Demo.unprocessable) = Rejected (Error "[object Object]")
  /\ upload (answered 500 "null")
     = Rejected (TypeError "Cannot read properties of null (reading 'detail')")
  /\ upload (answered 500 "{}") = Rejected (Error "Failed to upload document")
  /\ upload (answered 500 "Internal Server Error") = Rejected (Error "Upload failed").
Proof.
  intros upload answered v1 legacy.
  split; [reflexivity|]. split.
  { intros [[v Hv] | (r & Hr & _)]; [discriminate Hv | discriminate Hr]. }
  split; [reflexivity|]. split.
  { intros [[v Hv] | (r & Hr & Hbad & _)]; [discriminate Hv|].
    injection Hr as <-. discriminate Hbad. }
  repeat split; reflexivity.
Qed.

(** The response the README shows for an ingestion reaches the caller as the
    record it is. *)
Example uploadDocument_resolves :
  let served := Demo.always (Demo.streaming [Demo.stringify Demo.ingested] EndOfStream) in
  fst (uploadDocument (Demo.platform [Demo.ingested]) served Demo.paper (Demo.start tt tt))
  = Resolved Demo.ingested
  /\ as_IngestResponse Demo.ingested
     = Some {| success := true; document_id := "uuid"; filename := "document.pdf";
               chunks_created := 42;
               message := "Successfully ingested document.pdf with 42 chunks" |}.
Proof. vm_compute. auto. Qed.

(** C6 as amended.  On the store, deleting a document id either fails with
    [NotFoundError] when no document has the id, or, in one transition,
    removes the document and every chunk it owns, keeps every other document
    and chunk, and returns the id with the number of chunks deleted.  The
    client [deleteDocument] rejects whenever the response is not ok, with
    the error made from the body: an [Error] carrying the detail of the
    server when the body is an object whose detail is a non-empty string,
    [Error('Failed to delete document')] when the body cannot be read or
    does not parse, or is not [null] and has no detail or a falsy one.  It
    rejects with the error made from the body exactly when the response is
    not ok, but this is not the only way it rejects: when the response is ok
    it resolves to the parsed body, and rejects with the error of reading or
    parsing the body when that fails; and when the fetch fails it rejects
    with the error of [fetch].  The statement also records two cases beside
    these: a body that is [null] gives a [TypeError], and a detail that is
    truthy and not a string gives [Error(String(detail))] (shown for the
    numbers [String] prints in digits). *)
Theorem delete_document_contract
    (P : Platform) {St U : Type} (backend : Request -> St -> FetchResult * St)
    (id : string) (store : VectorStore.Store) (w : World St U) :
  let outcome := fst (deleteDocument P backend id w) in
  (VectorStore.documents store !! id = None ->
     VectorStore.delete_document id store = inl (VectorStore.NotFoundError id))
  /\ (is_Some (VectorStore.documents store !! id) ->
      exists result store',
        VectorStore.delete_document id store = inr (result, store')
        /\ VectorStore.deleted_id result = id
        /\ VectorStore.chunks_deleted result
           = length (List.filter (VectorStore.owned_by id) (VectorStore.chunks store))
        /\ VectorStore.documents store' !! id = None
        /\ Forall (fun c => VectorStore.document_id c <> id) (VectorStore.chunks store')
        /\ (forall other, other <> id ->
              VectorStore.documents store' !! other = VectorStore.documents store !! other)
        /\ VectorStore.chunks store'
           = List.filter (fun c => negb (VectorStore.owned_by id c)) (VectorStore.chunks store)
        /\ length (VectorStore.chunks store)
           = (VectorStore.chunks_deleted result + length (VectorStore.chunks store'))%nat
        /\ (VectorStore.no_orphans store -> VectorStore.no_orphans store'))
  /\ (forall r s1, backend (delete_request P id) (server w) = (Responded r, s1) ->
        (ok r = false ->
           outcome = Rejected (api_error P r "Failed to delete document"
                                 "Failed to delete document"))
        /\ (ok r = true ->
              outcome = match body_json P r with
                        | inr v => Resolved v
                        | inl e => Rejected e
                        end)
        /\ (outcome = Rejected (api_error P r "Failed to delete document"
                                  "Failed to delete document")
            <-> ok r = false))
  /\ (forall reason s1, backend (delete_request P id) (server w) = (NetworkFailure reason, s1) ->
        outcome = Rejected (TypeError reason))
  /\ (forall r,
        let error := api_error P r "Failed to delete document" "Failed to delete document" in
        (forall e, body_json P r = inl e -> error = Error "Failed to delete document")
        /\ (body_json P r = inr JNull ->
            error = TypeError "Cannot read properties of null (reading 'detail')")
        /\ (forall v, body_json P r = inr v -> v <> JNull ->
              truthy (detail_of v) = false -> error = Error "Failed to delete document")
        /\ (forall v detail,
              body_json P r = inr v -> detail_of v = Some detail ->
              truthy (Some detail) = true -> prints_in_digits detail = true ->
              error = Error (to_String detail))
        /\ (forall fields text,
              body_json P r = inr (JObj fields) ->
              lookup_field "detail" fields = Some (JStr text) -> text <> "" ->
              error = Error text)).
Proof.
  intros outcome.
  split; [apply delete_document_missing|].
  split; [apply delete_document_present|].
  pose proof (deleteDocument_outcome P backend id w) as Hend.
  fold outcome in Hend.
  split; [|split].
  - intros r s1 Hanswer.
    rewrite Hanswer in Hend. unfold settle in Hend.
    destruct (ok r) eqn:Hok.
    + split; [discriminate|]. split; [intros _; exact Hend|].
      split; [|discriminate]. intros Habs. rewrite Hend in Habs.
      destruct (body_json P r) as [e|v] eqn:Hbody; [|discriminate Habs].
      exfalso. exact (api_error_not_parse_error P r _ _ e Hbody Habs).
    + split; [intros _; exact Hend|]. split; [discriminate|]. split; auto.
  - intros reason s1 Hanswer. rewrite Hanswer in Hend. exact Hend.
  - intros r. apply api_error_cases. discriminate.
Qed.

(** C6 as stated fails for the client.  A deletion answered 204 No Content
    is ok, and [deleteDocument] rejects all the same, with the error of the
    parser on the empty body: it does not reject exactly when the response
    is not ok; and it rejects with the error of [fetch] when there is no
    response at all.  Nor does the error for a response that is not ok
    always carry a detail of the server: a body of plain text and a body
    without detail give the message of the client, a detail that is a list
    of objects gives '[object Object]', and a body that is [null] gives a
    [TypeError]. *)
Lemma deleteDocument_rejects_no_content :
  let delete answer :=
    fst (deleteDocument Demo.errors_platform (Demo.always answer) "d1" (Demo.start tt tt)) in
  let answered code text := Responded {| status := code; body := Demo.closed [text] |} in
  let no_content := {| status := 204; body := None |} in
  ok no_content = true
  /\ delete (Responded no_content) = Rejected (SyntaxError "Unexpected end of JSON input")
  /\ ~ rejects_exactly_when_not_ok (delete (Responded no_content)) no_content
  /\ delete (NetworkFailure "Failed to fetch") = Rejected (TypeError "Failed to fetch")
  /\ delete (answered 500 "Internal Server Error")
     = Rejected (Error "Failed to delete document")
  /\ delete (answered 500 "{}") = Rejected (Error "Failed to delete document")
  /\ delete (Responded Demo.unprocessable) = Rejected (Error "[object Object]")
  /\ delete (answered 500 "null")
     = Rejected (TypeError "Cannot read properties of null (reading 'detail')").
Proof.
  intros delete answered no_content.
  split; [reflexivity|]. split; [reflexivity|]. split; [|repeat split; reflexivity].
  intros [Hrejects _].
  assert (Hbad : ok no_content = false) by (apply Hrejects; eexists; reflexivity).
  discriminate Hbad.
Qed.

(** ** The stream consumer on frames that arrive whole *)

Section Lines.

Lemma append_cons (c : ascii) (a b : string) : String c a +:+ b = String c (a +:+ b).
Proof. reflexivity. Qed.

Lemma append_nil (b : string) : "" +:+ b = b.
Proof. reflexivity. Qed.

Lemma append_empty (x : string) : x +:+ "" = x.
Proof.
  induction x as [|c x' IH]; [reflexivity|]. rewrite append_cons, IH. reflexivity.
Qed.

Lemma append_assoc (a b c : string) : (a +:+ b) +:+ c = a +:+ (b +:+ c).
Proof.
  induction a as [|x a' IH]; [reflexivity|]. rewrite !append_cons, IH. reflexivity.
Qed.

Lemma split_at_separator (sep : ascii) (a rest : string) :
  Js.contains sep a = false ->
  Js.split sep (a +:+ String sep rest) = a :: Js.split sep rest.
Proof.
  induction a as [|c a' IH]; intros Hfree.
  - rewrite append_nil. simpl. rewrite Ascii.eqb_refl. reflexivity.
  - simpl in Hfree. apply orb_false_elim in Hfree as [Hc Hfree].
    rewrite append_cons. simpl. rewrite Hc, (IH Hfree). reflexivity.
Qed.

Lemma concat_cons (x : string) (xs : list string) :
  String.concat "" (x :: xs) = x +:+ String.concat "" xs.
Proof.
  destruct xs as [|y ys]; simpl; [|rewrite append_nil; reflexivity].
  symmetry. apply append_empty.
Qed.

Lemma trim_keeps_word (c : ascii) (r : string) :
  Js.is_white_space c = false -> Js.truthy_string (Js.trim (String c r)) = true.
Proof.
  intros Hc. unfold Js.trim. simpl. rewrite Hc. simpl.
  destruct (Js.trimEnd r); [rewrite Hc|]; reflexivity.
Qed.

Context (P : Platform) (encode : json -> string).

Lemma frame_lines (e : Answer.Event) (rest : string) :
  Js.contains Js.LF (encode (Answer.event_json e)) = false ->
  Js.split Js.LF (Answer.frame encode e +:+ rest)
  = Answer.line encode e :: "" :: Js.split Js.LF rest.
Proof.
  intros Hfree. unfold Answer.frame, Answer.blank_line.
  rewrite append_assoc, append_cons, append_cons, append_nil.
  rewrite split_at_separator.
  - rewrite <- (append_nil (String Js.LF rest)).
    rewrite (split_at_separator Js.LF "" rest) by reflexivity. reflexivity.
  - unfold Answer.line. rewrite !append_cons, append_nil. simpl. exact Hfree.
Qed.

Lemma line_is_kept (e : Answer.Event) :
  Js.truthy_string (Js.trim (Answer.line encode e)) = true.
Proof.
  unfold Answer.line. rewrite append_cons. apply trim_keeps_word. reflexivity.
Qed.

Lemma lines_of_frames (group : list Answer.Event) :
  Forall (Answer.well_framed P encode) group ->
  lines_of (String.concat "" (map (Answer.frame encode) group))
  = map (Answer.line encode) group.
Proof.
  unfold lines_of. induction group as [|e rest IH]; intros Hgroup; [reflexivity|].
  inversion Hgroup as [|? ? [_ Hfree] Hrest]; subst.
  change (map (Answer.frame encode) (e :: rest))
    with (Answer.frame encode e :: map (Answer.frame encode) rest).
  rewrite concat_cons, frame_lines by exact Hfree.
  simpl List.filter. rewrite line_is_kept. simpl.
  rewrite (IH Hrest). reflexivity.
Qed.

Context {U : Type} (onContent onSources : js_value -> U -> U).

Lemma handle_line_event (e : Answer.Event) (u : U) :
  Answer.well_framed P encode e ->
  handle_line P onContent onSources (Answer.line encode e) u
  = Answer.apply_event onContent onSources u e.
Proof.
  intros [Hparse _]. unfold handle_line, Answer.line, Js.startsWith.
  rewrite !append_cons, append_nil. simpl.
  replace (String.prefix "" (encode (Answer.event_json e))) with true
    by (destruct (encode (Answer.event_json e)); reflexivity).
  unfold dispatch. rewrite Hparse. destruct e; reflexivity.
Qed.

Lemma handle_chunk_events (group : list Answer.Event) (u : U) :
  Forall (Answer.well_framed P encode) group ->
  handle_chunk P onContent onSources
    (String.concat "" (map (Answer.frame encode) group)) u
  = fold_left (Answer.apply_event onContent onSources) group u.
Proof.
  intros Hgroup. unfold handle_chunk. rewrite lines_of_frames by exact Hgroup.
  revert u. induction Hgroup as [|e rest He Hrest IH]; intros u; [reflexivity|].
  simpl. rewrite handle_line_event by exact He. apply IH.
Qed.

Lemma whole_delivery_events (groups : list (list Answer.Event)) (u : U) :
  Forall (Answer.well_framed P encode) (concat groups) ->
  fold_left (fun u text => handle_chunk P onContent onSources text u)
    (Answer.deliver_whole encode groups) u
  = fold_left (Answer.apply_event onContent onSources) (concat groups) u.
Proof.
  revert u. induction groups as [|group rest IH]; intros u Hall; [reflexivity|].
  simpl in Hall. apply Forall_app in Hall as [Hgroup Hrest].
  simpl. rewrite handle_chunk_events by exact Hgroup.
  rewrite fold_left_app. apply IH, Hrest.
Qed.

Lemma apply_answer_events (retrieved : list string) (g : Answer.Generation) (u : U) :
  fold_left (Answer.apply_event onContent onSources) (Answer.answer_events retrieved g) u
  = fold_left (fun u fragment => onContent (Some (JStr fragment)) u)
      (Answer.fragments g)
      (onSources (Some (JArr (map JStr (Answer.distinct [] retrieved)))) u).
Proof.
  unfold Answer.answer_events. simpl. rewrite fold_left_app.
  generalize (onSources (Some (JArr (map JStr (Answer.distinct [] retrieved)))) u).
  intros u'. simpl.
  assert (Hterminal : forall u0,
            Answer.apply_event onContent onSources u0
              (match Answer.failure g with
               | Some message => Answer.Failed message
               | None => Answer.Done
               end) = u0) by (intros u0; destruct (Answer.failure g); reflexivity).
  rewrite Hterminal. revert u'.
  induction (Answer.fragments g) as [|f rest IH]; intros u'; [reflexivity|].
  simpl. apply IH.
Qed.

End Lines.


Lemma recorded_contents (fragments : list string) (log : list Answer.Callback) :
  fold_left (fun u fragment => Answer.record_content (Some (JStr fragment)) u) fragments log
  = log ++ map (fun fragment => Answer.SawContent (Some (JStr fragment))) fragments.
Proof.
  revert log. induction fragments as [|f rest IH]; intros log; simpl.
  - rewrite app_nil_r. reflexivity.
  - rewrite IH. unfold Answer.record_content. rewrite <- app_assoc. reflexivity.
Qed.

Lemma sources_lead (names : js_value) (rest : list Answer.Callback) :
  Answer.sources_precede_content (Answer.SawSources names :: rest).
Proof.
  intros before chunk after Hlog. destruct before as [|first before'].
  - discriminate Hlog.
  - injection Hlog as <- _. exists names. left. reflexivity.
Qed.

Lemma answer_events_ordered (retrieved : list string) (g : Answer.Generation) :
  Answer.ordered (Answer.answer_events retrieved g)
    (match Answer.failure g with
     | None => Answer.Done
     | Some message => Answer.Failed message
     end).
Proof. exists (Answer.distinct [] retrieved), (Answer.fragments g). reflexivity. Qed.

(** C2, on the code.  The events of the answer of the examples are
    ordered: the sources event, the two content events, the done event.
    Delivered whole, the stream makes the consumer of [sendChatMessage]
    invoke [onSources] first and [onContent] twice after it.  The same bytes
    with the frame of the sources event cut in two by the transport, so that
    its first 20 characters come with one read and the rest with the next:
    the consumer handles each read on its own, the first piece does not
    parse and the second does not start with "data: ", both are dropped, and
    [onContent] is invoked twice with no [onSources] before it.  On the chat
    page the answer is then on display with no source beside it. *)
Theorem cut_frame_loses_sources :
  let whole := map (Answer.frame Demo.stringify) Demo.answer in
  let consume texts :=
    sendChatMessage Demo.events_platform
      (Demo.always (Demo.streaming texts EndOfStream))
      Answer.record_content Answer.record_sources
      "What is this document about?" [] (Demo.start tt []) in
  let page := caller (snd (Page.handleSubmit Demo.events_platform
                             (Demo.always (Demo.streaming Demo.cut_delivery EndOfStream))
                             (Demo.start tt Demo.asking))) in
  Answer.ordered Demo.answer Answer.Done
  /\ String.concat "" Demo.cut_delivery = String.concat "" whole
  /\ map String.length Demo.cut_delivery = [20; 154]%nat
  /\ caller (snd (consume whole))
     = [Answer.SawSources (Some (JArr [JStr "doc1.pdf"; JStr "doc2.pdf"]));
        Answer.SawContent (Some (JStr "Based on"));
        Answer.SawContent (Some (JStr " the documents"))]
  /\ Answer.sources_precede_content (caller (snd (consume whole)))
  /\ fst (consume Demo.cut_delivery) = Resolved tt
  /\ caller (snd (consume Demo.cut_delivery))
     = [Answer.SawContent (Some (JStr "Based on"));
        Answer.SawContent (Some (JStr " the documents"))]
  /\ ~ Answer.sources_precede_content (caller (snd (consume Demo.cut_delivery)))
  /\ Page.messages page
     = [{| role := user; content := "What is this document about?" |};
        {| role := assistant; content := "Based on the documents" |}]
  /\ Page.sources page = Some (JArr [])
  /\ Page.error page = None.
Proof.
  intros whole consume page.
  assert (Hwhole : caller (snd (consume whole))
                   = [Answer.SawSources (Some (JArr [JStr "doc1.pdf"; JStr "doc2.pdf"]));
                      Answer.SawContent (Some (JStr "Based on"));
                      Answer.SawContent (Some (JStr " the documents"))])
    by (vm_compute; reflexivity).
  assert (Hcut : caller (snd (consume Demo.cut_delivery))
                 = [Answer.SawContent (Some (JStr "Based on"));
                    Answer.SawContent (Some (JStr " the documents"))])
    by (vm_compute; reflexivity).
  split; [apply (answer_events_ordered ["doc1.pdf"; "doc2.pdf"; "doc1.pdf"]
                   {| Answer.fragments := ["Based on"; " the documents"];
                      Answer.failure := None |})|].
  split; [vm_compute; reflexivity|].
  split; [vm_compute; reflexivity|].
  split; [exact Hwhole|].
  split; [rewrite Hwhole; apply sources_lead|].
  split; [vm_compute; reflexivity|].
  split; [exact Hcut|].
  split.
  { rewrite Hcut. intros Hfirst.
    destruct (Hfirst [] (Some (JStr "Based on"))
                [Answer.SawContent (Some (JStr " the documents"))] eq_refl) as [names []]. }
  vm_compute. auto.
Qed.

(** ** The error event *)

(** An event whose type is "error" runs neither callback, raises nothing and
    leaves nothing behind, whatever else it carries. *)
Lemma dispatch_ignores_error
    (P : Platform) {U : Type} (onContent onSources : js_value -> U -> U)
    (payload : string) (data : json) (u : U) :
  JSON_parse P payload = Some data ->
  get_prop data "type" = inr (Some (JStr "error")) ->
  dispatch P onContent onSources payload u = u.
Proof.
  intros Hparse Htype. unfold dispatch. rewrite Hparse, Htype. reflexivity.
Qed.

(** C3, on the code.  The generation fails after one fragment: the stream of
    the backend ends with the error event and has no done event.  The chat
    page submits the question against that stream, delivered whole:
    [sendChatMessage] resolves, [handleSubmit] never reaches its catch
    branch, the page shows no error and stops loading with the partial
    answer on display as if it were finished.  When instead the connection
    is lost after the same frames, [reader.read()] rejects and the page
    shows the error. *)
Theorem error_event_goes_unnoticed :
  let stream := Answer.deliver_whole Demo.stringify [Demo.broken_answer] in
  let ended := Demo.always (Demo.streaming stream EndOfStream) in
  let lost := Demo.always (Demo.streaming stream (ConnectionLost "network error")) in
  let w := Demo.start tt Demo.asking in
  let after := caller (snd (Page.handleSubmit Demo.events_platform ended w)) in
  let after_lost := caller (snd (Page.handleSubmit Demo.events_platform lost w)) in
  List.last Demo.broken_answer Answer.Done = Answer.Failed "generation failed"
  /\ ~ In Answer.Done Demo.broken_answer
  /\ fst (Page.the_chat Demo.events_platform ended w) = Resolved tt
  /\ Page.error after = None
  /\ Page.isLoading after = false
  /\ Page.messages after
     = [{| role := user; content := "What is this document about?" |};
        {| role := assistant; content := "Based on" |}]
  /\ fst (Page.the_chat Demo.events_platform lost w) = Rejected (TypeError "network error")
  /\ Page.error after_lost = Some "network error".
Proof.
  vm_compute. repeat split; try reflexivity.
  intros [H|[H|[H|[]]]]; discriminate H.
Qed.

(* ===================================================================== *)
(** * Further results on the client *)
(* ===================================================================== *)

Section ClientEnds.

Context (P : Platform) {St U : Type} (backend : Request -> St -> FetchResult * St).

(** X1. [healthCheck] never rejects.  It sends one GET to the [/health] path
    of the base URL, with no version prefix and no fallback, and resolves to
    [response.ok] when the backend answers and to [false] when the fetch
    fails. *)
Theorem healthCheck_never_rejects (w : World St U) :
  let request := get_request (API_BASE_URL P +:+ "/health") in
  let run := healthCheck P backend w in
  sent (snd run) = sent w ++ [request]
  /\ caller (snd run) = caller w
  /\ fst run = Resolved (match backend request (server w) with
                         | (Responded r, _) => ok r
                         | (NetworkFailure _, _) => false
                         end).
Proof.
  unfold healthCheck, catch, bind, fetch. simpl.
  destruct (backend _ (server w)) as [[reason|r] s1]; simpl; auto.
Qed.

(** How [listDocuments] ends, by the response it goes on with. *)
Lemma listDocuments_outcome (w : World St U) :
  match final_response backend (server w)
          (get_request (endpoint P API_VERSION "/documents"))
          (get_request (endpoint P LEGACY_API "/documents")) with
  | Some r =>
      fst (listDocuments P backend w)
      = if ok r then
          match body_json P r with
          | inr data =>
              match get_prop data "documents" with
              | inr documents => Resolved documents
              | inl e => Rejected e
              end
          | inl e => Rejected e
          end
        else Rejected (api_error P r "Failed to list documents" "Failed to list documents")
  | None =>
      exists reason, fst (listDocuments P backend w) = Rejected (TypeError reason)
  end.
Proof.
  assert (Hrest : forall (r : Response) (w' : World St U),
            fst ((if negb (ok r)
                  then throw_api_error P r "Failed to list documents" "Failed to list documents"
                  else bind (response_json P r)
                         (fun data => lift_result (get_prop data "documents"))) w')
            = if ok r then
                match body_json P r with
                | inr data =>
                    match get_prop data "documents" with
                    | inr documents => Resolved documents
                    | inl e => Rejected e
                    end
                | inl e => Rejected e
                end
              else Rejected (api_error P r "Failed to list documents"
                               "Failed to list documents")).
  { intros r w'. destruct (ok r); simpl.
    - unfold bind. rewrite response_json_run.
      destruct (body_json P r) as [e|data]; [reflexivity|].
      unfold lift_result. destruct (get_prop data "documents"); reflexivity.
    - rewrite throw_api_error_run. reflexivity. }
  unfold final_response, listDocuments, bind, fetch.
  destruct (backend _ (server w)) as [[reason|r] s1]; simpl; [eauto|].
  destruct (status r =? 404); simpl.
  - unfold fetch. simpl. destruct (backend _ s1) as [[reason|r2] s2]; simpl; [eauto|].
    apply Hrest.
  - apply Hrest.
Qed.

(** X2. [listDocuments] resolves to the [documents] field of the body of a
    response that is ok: to [undefined], without an error, when the body is
    an object that has no such field.  It rejects with a [TypeError] when the
    body is the JSON [null], and with the error made from the body when the
    response is not ok. *)
Theorem listDocuments_ends (w : World St U) (r : Response) :
  final_response backend (server w)
    (get_request (endpoint P API_VERSION "/documents"))
    (get_request (endpoint P LEGACY_API "/documents")) = Some r ->
  let outcome := fst (listDocuments P backend w) in
  (ok r = true ->
     (forall fields, body_json P r = inr (JObj fields) ->
        outcome = Resolved (lookup_field "documents" fields))
     /\ (body_json P r = inr JNull -> exists reason, outcome = Rejected (TypeError reason))
     /\ (forall e, body_json P r = inl e -> outcome = Rejected e))
  /\ (ok r = false ->
      outcome = Rejected (api_error P r "Failed to list documents"
                            "Failed to list documents")).
Proof.
  intros Hfinal outcome. pose proof (listDocuments_outcome w) as Hend.
  rewrite Hfinal in Hend. fold outcome in Hend. split.
  - intros Hok. rewrite Hok in Hend. split; [|split].
    + intros fields Hbody. rewrite Hbody in Hend. exact Hend.
    + intros Hbody. rewrite Hbody in Hend. simpl in Hend. eauto.
    + intros e Hbody. rewrite Hbody in Hend. exact Hend.
  - intros Hbad. rewrite Hbad in Hend. exact Hend.
Qed.

Section ChatEnds.

Context (onContent onSources : js_value -> U -> U).

(** How [sendChatMessage] ends and what it has done to the caller, by the
    response it goes on with. *)
Lemma sendChatMessage_end (message : string) (history : list Message) (w : World St U) :
  let run := sendChatMessage P backend onContent onSources message history w in
  match final_response backend (server w)
          (chat_request P API_VERSION message history)
          (chat_request P LEGACY_API message history) with
  | Some r =>
      if ok r then
        match body r with
        | Some reader =>
            fst run = match ending reader with
                      | EndOfStream => Resolved tt
                      | ConnectionLost reason => Rejected (TypeError reason)
                      end
            /\ caller (snd run)
               = fold_left (fun u text => handle_chunk P onContent onSources text u)
                   (chunks reader) (caller w)
        | None => fst run = Rejected (Error "No response body")
                  /\ caller (snd run) = caller w
        end
      else fst run = Rejected (api_error P r "Chat failed" "Failed to get response")
           /\ caller (snd run) = caller w
  | None => (exists reason, fst run = Rejected (TypeError reason))
            /\ caller (snd run) = caller w
  end.
Proof.
  assert (Hrest : forall (r : Response) (w' : World St U),
            let rest :=
              (if negb (ok r)
               then throw_api_error P r "Chat failed" "Failed to get response"
               else match body r with
                    | Some reader =>
                        read_loop P onContent onSources (chunks reader) (ending reader)
                    | None => throw (Error "No response body")
                    end) w' in
            if ok r then
              match body r with
              | Some reader =>
                  fst rest = match ending reader with
                             | EndOfStream => Resolved tt
                             | ConnectionLost reason => Rejected (TypeError reason)
                             end
                  /\ caller (snd rest)
                     = fold_left (fun u text => handle_chunk P onContent onSources text u)
                         (chunks reader) (caller w')
              | None => fst rest = Rejected (Error "No response body")
                        /\ caller (snd rest) = caller w'
              end
            else fst rest = Rejected (api_error P r "Chat failed" "Failed to get response")
                 /\ caller (snd rest) = caller w').
  { intros r w'. destruct (ok r); simpl.
    - destruct (body r) as [reader|]; simpl; [|auto].
      rewrite read_loop_run. simpl. auto.
    - rewrite throw_api_error_run. simpl. auto. }
  intros run. subst run. unfold final_response, sendChatMessage, bind, fetch.
  destruct (backend _ (server w)) as [[reason|r] s1]; simpl; [eauto|].
  destruct (status r =? 404); simpl.
  - unfold fetch. simpl. destruct (backend _ s1) as [[reason|r2] s2]; simpl; [eauto|].
    exact (Hrest r2 _).
  - exact (Hrest r _).
Qed.

(** X3. When [sendChatMessage] does not get to read a stream it rejects
    having run no callback: with the error made from the body when the
    response is not ok, with 'No response body' when a response that is ok
    has no body, and with the error of [fetch] when no response came. *)
Theorem sendChatMessage_refused (message : string) (history : list Message) (w : World St U) :
  let run := sendChatMessage P backend onContent onSources message history w in
  let final := final_response backend (server w)
                 (chat_request P API_VERSION message history)
                 (chat_request P LEGACY_API message history) in
  (forall r, final = Some r -> ok r = false ->
     fst run = Rejected (api_error P r "Chat failed" "Failed to get response")
     /\ caller (snd run) = caller w)
  /\ (forall r, final = Some r -> ok r = true -> body r = None ->
        fst run = Rejected (Error "No response body") /\ caller (snd run) = caller w)
  /\ (final = None ->
        (exists reason, fst run = Rejected (TypeError reason))
        /\ caller (snd run) = caller w).
Proof.
  intros run final. pose proof (sendChatMessage_end message history w) as Hend.
  fold run final in Hend. cbv zeta in Hend. fold run final in Hend.
  split; [|split].
  - intros r Hr Hbad. rewrite Hr, Hbad in Hend. exact Hend.
  - intros r Hr Hok Hbody. rewrite Hr, Hok, Hbody in Hend. exact Hend.
  - intros Hnone. rewrite Hnone in Hend. exact Hend.
Qed.

(** A response that is ok and streams the frames of an answer whole ends
    resolved, with [onSources] run once on the names and then [onContent]
    run on each fragment in order; the terminal event, done or error, runs
    nothing.  The response is the one [sendChatMessage] goes on with, of
    /api/v1/chat or of /api/chat. *)
Lemma whole_delivery_end
    (encode : json -> string) (retrieved : list string) (g : Answer.Generation)
    (groups : list (list Answer.Event))
    (message : string) (history : list Message) (w : World St U) (r : Response) :
  Forall (Answer.well_framed P encode) (Answer.answer_events retrieved g) ->
  concat groups = Answer.answer_events retrieved g ->
  final_response backend (server w)
    (chat_request P API_VERSION message history)
    (chat_request P LEGACY_API message history) = Some r ->
  ok r = true ->
  body r = Some {| chunks := Answer.deliver_whole encode groups; ending := EndOfStream |} ->
  let run := sendChatMessage P backend onContent onSources message history w in
  fst run = Resolved tt
  /\ caller (snd run)
     = fold_left (fun u fragment => onContent (Some (JStr fragment)) u)
         (Answer.fragments g)
         (onSources (Some (JArr (map JStr (Answer.distinct [] retrieved)))) (caller w)).
Proof.
  intros Hframed Hgroups Hfinal Hok Hbody run.
  pose proof (sendChatMessage_end message history w) as Hend.
  cbv zeta in Hend. rewrite Hfinal, Hok, Hbody in Hend. simpl in Hend.
  destruct Hend as [Hout Hcaller]. split; [exact Hout|].
  subst run. rewrite Hcaller.
  rewrite (whole_delivery_events P encode) by (rewrite Hgroups; exact Hframed).
  rewrite Hgroups. apply apply_answer_events.
Qed.

End ChatEnds.

End ClientEnds.

(** X4. When the connection is lost in the middle of the stream,
    [sendChatMessage] rejects with the error of the reader, and the caller
    keeps everything the chunks read before the loss gave it: its state is
    the one the same chunks leave when the stream ends normally.  The stream
    is the body of the response [sendChatMessage] goes on with, the one of
    /api/v1/chat or, after a 404, the one of /api/chat. *)
Theorem sendChatMessage_keeps_partial_answer
    (P : Platform) {St U : Type} (backend : Request -> St -> FetchResult * St)
    (onContent onSources : js_value -> U -> U)
    (message : string) (history : list Message) (w : World St U)
    (r : Response) (texts : list string) (reason : string) :
  final_response backend (server w)
    (chat_request P API_VERSION message history)
    (chat_request P LEGACY_API message history) = Some r ->
  ok r = true ->
  body r = Some {| chunks := texts; ending := ConnectionLost reason |} ->
  let run := sendChatMessage P backend onContent onSources message history w in
  fst run = Rejected (TypeError reason)
  /\ caller (snd run)
     = fold_left (fun u text => handle_chunk P onContent onSources text u) texts (caller w)
  /\ forall (St' : Type) (ended : Request -> St' -> FetchResult * St') (w' : World St' U)
            (r' : Response),
       final_response ended (server w')
         (chat_request P API_VERSION message history)
         (chat_request P LEGACY_API message history) = Some r' ->
       ok r' = true ->
       body r' = Some {| chunks := texts; ending := EndOfStream |} ->
       caller w' = caller w ->
       fst (sendChatMessage P ended onContent onSources message history w') = Resolved tt
       /\ caller (snd (sendChatMessage P ended onContent onSources message history w'))
          = caller (snd run).
Proof.
  intros Hfinal Hok Hbody run.
  pose proof (sendChatMessage_end P backend onContent onSources message history w) as Hend.
  cbv zeta in Hend. rewrite Hfinal, Hok, Hbody in Hend. simpl in Hend.
  destruct Hend as [Hout Hcaller]. fold run in Hout, Hcaller.
  split; [exact Hout|]. split; [exact Hcaller|].
  intros St' ended w' r' Hfinal' Hok' Hbody' Hsame.
  pose proof (sendChatMessage_end P ended onContent onSources message history w') as Hend'.
  cbv zeta in Hend'. rewrite Hfinal', Hok', Hbody' in Hend'. simpl in Hend'.
  destruct Hend' as [Hout' Hcaller'].
  split; [exact Hout'|]. rewrite Hcaller', Hcaller, Hsame. reflexivity.
Qed.

(** X20. When the frames of an answer reach the reader whole (each chunk
    read carries the frames of some consecutive events, the encoder and the
    parser agreeing on them) in the body of the response [sendChatMessage]
    goes on with, the one of /api/v1/chat or, after a 404, the one of
    /api/chat, the stream consumer resolves having invoked [onSources] once,
    first, and then [onContent] once per fragment, in generation order: no
    [onContent] comes before [onSources].  The terminal event, done or
    error, invokes nothing. *)
Theorem sources_before_content
    (P : Platform) (encode : json -> string)
    {St : Type} (backend : Request -> St -> FetchResult * St)
    (retrieved : list string) (g : Answer.Generation) (groups : list (list Answer.Event))
    (message : string) (history : list Message)
    (w : World St (list Answer.Callback)) (r : Response) :
  Forall (Answer.well_framed P encode) (Answer.answer_events retrieved g) ->
  concat groups = Answer.answer_events retrieved g ->
  final_response backend (server w)
    (chat_request P API_VERSION message history)
    (chat_request P LEGACY_API message history) = Some r ->
  ok r = true ->
  body r = Some {| chunks := Answer.deliver_whole encode groups; ending := EndOfStream |} ->
  caller w = [] ->
  let run := sendChatMessage P backend Answer.record_content Answer.record_sources
               message history w in
  fst run = Resolved tt
  /\ caller (snd run)
     = Answer.SawSources (Some (JArr (map JStr (Answer.distinct [] retrieved))))
         :: map (fun fragment => Answer.SawContent (Some (JStr fragment)))
                (Answer.fragments g)
  /\ Answer.sources_precede_content (caller (snd run)).
Proof.
  intros Hframed Hgroups Hfinal Hok Hbody Hfresh run.
  destruct (whole_delivery_end P backend Answer.record_content Answer.record_sources
              encode retrieved g groups message history w r
              Hframed Hgroups Hfinal Hok Hbody) as [Hout Hcaller].
  fold run in Hout, Hcaller. rewrite Hcaller.
  rewrite recorded_contents, Hfresh. simpl.
  split; [exact Hout|]. split; [reflexivity|]. apply sources_lead.
Qed.

(** The theorem at the answer of the examples, delivered in two chunks by a
    backend that has the legacy route only. *)
Lemma sources_before_content_example :
  let groups := [[Answer.Sources ["doc1.pdf"; "doc2.pdf"]; Answer.Content "Based on"];
                 [Answer.Content " the documents"; Answer.Done]] in
  let backend := Demo.legacy_only
                   (Demo.streaming (Answer.deliver_whole Demo.stringify groups)
                      EndOfStream) in
  let run := sendChatMessage Demo.events_platform backend
               Answer.record_content Answer.record_sources
               "What is this document about?" [] (Demo.start tt []) in
  map req_url (sent (snd run))
  = ["http://localhost:8000/api/v1/chat"; "http://localhost:8000/api/chat"]
  /\ fst run = Resolved tt
  /\ caller (snd run)
     = [Answer.SawSources (Some (JArr [JStr "doc1.pdf"; JStr "doc2.pdf"]));
        Answer.SawContent (Some (JStr "Based on"));
        Answer.SawContent (Some (JStr " the documents"))]
  /\ Answer.sources_precede_content (caller (snd run)).
Proof.
  intros groups backend run. split; [reflexivity|].
  refine (sources_before_content Demo.events_platform Demo.stringify backend
            ["doc1.pdf"; "doc2.pdf"; "doc1.pdf"]
            {| Answer.fragments := ["Based on"; " the documents"]; Answer.failure := None |}
            groups "What is this document about?" [] (Demo.start tt [])
            {| status := 200;
               body := Some {| chunks := Answer.deliver_whole Demo.stringify groups;
                               ending := EndOfStream |} |}
            _ _ _ _ _ _).
  - repeat constructor.
  - reflexivity.
  - reflexivity.
  - reflexivity.
  - reflexivity.
  - reflexivity.
Defined.

(** ** Lines and chunks *)

Lemma split_nonempty (sep : ascii) (s : string) : Js.split sep s <> [].
Proof.
  destruct s as [|c r]; simpl; [discriminate|].
  destruct (Ascii.eqb c sep); [discriminate|].
  destruct (Js.split sep r); discriminate.
Qed.

Lemma split_append (sep : ascii) (a b : string) :
  Js.split sep (a +:+ String sep b) = Js.split sep a ++ Js.split sep b.
Proof.
  induction a as [|c a' IH].
  - rewrite append_nil. simpl. rewrite Ascii.eqb_refl. reflexivity.
  - rewrite append_cons. simpl. destruct (Ascii.eqb c sep).
    + rewrite IH. reflexivity.
    + rewrite IH. pose proof (split_nonempty sep a') as Hne.
      destruct (Js.split sep a') as [|h t]; [contradiction|]. reflexivity.
Qed.

Section Chunks.

Context (P : Platform) {St U : Type} (onContent onSources : js_value -> U -> U).

Lemma handle_chunk_append (a b : string) (u : U) :
  handle_chunk P onContent onSources (a +:+ String Js.LF b) u
  = handle_chunk P onContent onSources b (handle_chunk P onContent onSources a u).
Proof.
  unfold handle_chunk, lines_of. rewrite split_append, List.filter_app, fold_left_app.
  reflexivity.
Qed.

(** X5. The stream consumer does not depend on how the transport groups
    whole lines into chunks: reading two chunks [a] and [b] one after the
    other, or reading them joined by a line feed as one chunk, ends the same
    way with the same callbacks run in the same order. *)
Theorem chunks_joined_at_line_end
    (before after : list string) (a b : string) (final : StreamEnd) (w : World St U) :
  read_loop P onContent onSources (before ++ [a +:+ String Js.LF b] ++ after) final w
  = read_loop P onContent onSources (before ++ [a; b] ++ after) final w.
Proof.
  rewrite !read_loop_run. f_equal. f_equal.
  rewrite !fold_left_app. simpl. rewrite handle_chunk_append. reflexivity.
Qed.

(** X6. A chunk none of whose lines starts with "data: " (comments, event
    names, keep-alive lines of a server-sent stream) runs no callback. *)
Theorem other_lines_run_nothing (text : string) (u : U) :
  Forall (fun line => Js.startsWith "data: " line = false) (Js.split Js.LF text) ->
  handle_chunk P onContent onSources text u = u.
Proof.
  intros Hlines. unfold handle_chunk, lines_of.
  induction Hlines as [|line rest Hline Hrest IH]; [reflexivity|].
  simpl. destruct (Js.truthy_string (Js.trim line)); [|exact IH].
  simpl. unfold handle_line at 2. rewrite Hline. exact IH.
Qed.

End Chunks.

Lemma other_lines_run_nothing_example :
  handle_chunk (Demo.platform []) Answer.record_content Answer.record_sources
    (": keep-alive" +:+ String Js.LF ("event: ping" +:+ String Js.LF "")) []
  = [].
Proof.
  apply (other_lines_run_nothing (Demo.platform []) Answer.record_content
           Answer.record_sources).
  repeat constructor.
Defined.

(** ** The base URL *)

Lemma prefix_append (a b : string) : String.prefix a (a +:+ b) = true.
Proof.
  induction a as [|c a' IH]; [destruct b; reflexivity|].
  rewrite append_cons. simpl.
  destruct (ascii_dec c c) as [_|Hne]; [exact IH | contradiction].
Qed.

Section BaseUrl.

Context (P : Platform) {St U : Type} (backend : Request -> St -> FetchResult * St).

Lemma endpoint_on_base (version path : string) :
  Js.startsWith (API_BASE_URL P) (endpoint P version path) = true.
Proof. unfold Js.startsWith, endpoint. apply prefix_append. Qed.

Lemma attempts_on_base (s : St) (v1 legacy : Request) :
  Js.startsWith (API_BASE_URL P) (req_url v1) = true ->
  Js.startsWith (API_BASE_URL P) (req_url legacy) = true ->
  Forall (fun request => Js.startsWith (API_BASE_URL P) (req_url request) = true)
    (attempts backend s v1 legacy).
Proof.
  intros Hv1 Hlegacy.
  destruct (attempts_cases backend s v1 legacy) as [-> | ->]; repeat constructor; assumption.
Qed.

Lemma retrying_stays_on_base {A} (op : Promise St U A) (v1 legacy : Request) :
  retries_exactly_on_404 backend op v1 legacy ->
  Js.startsWith (API_BASE_URL P) (req_url v1) = true ->
  Js.startsWith (API_BASE_URL P) (req_url legacy) = true ->
  stays_on_base P op.
Proof.
  intros Hop Hv1 Hlegacy w. exists (attempts backend (server w) v1 legacy).
  split; [apply (retries_attempts backend), Hop | apply attempts_on_base; assumption].
Qed.

Lemma single_stays_on_base {A} (op : Promise St U A) (v1 : Request) :
  never_falls_back backend op v1 ->
  Js.startsWith (API_BASE_URL P) (req_url v1) = true ->
  stays_on_base P op.
Proof.
  intros Hop Hv1 w. exists [v1]. split; [apply Hop | repeat constructor; exact Hv1].
Qed.

(** X7. The base URL is never empty (an unset or empty
    [NEXT_PUBLIC_API_URL] gives 'http://localhost:8000'), and every request
    of every operation of the client goes to a URL that starts with it. *)
Theorem client_stays_on_base
    (onContent onSources : js_value -> U -> U)
    (file : File) (message : string) (history : list Message) (documentId : string) :
  API_BASE_URL P <> ""
  /\ (Js.truthy_string (default "" (NEXT_PUBLIC_API_URL P)) = false ->
      API_BASE_URL P = "http://localhost:8000")
  /\ stays_on_base P (uploadDocument (U:=U) P backend file)
  /\ stays_on_base P (sendChatMessage P backend onContent onSources message history)
  /\ stays_on_base P (listDocuments (U:=U) P backend)
  /\ stays_on_base P (deleteDocument (U:=U) P backend documentId)
  /\ stays_on_base P (getStats (U:=U) P backend)
  /\ stays_on_base P (healthCheck (U:=U) P backend).
Proof.
  split.
  { unfold API_BASE_URL. destruct (NEXT_PUBLIC_API_URL P) as [url|]; [|discriminate].
    destruct url; simpl; discriminate. }
  split.
  { unfold API_BASE_URL. destruct (NEXT_PUBLIC_API_URL P) as [url|]; simpl; [|reflexivity].
    intros ->. reflexivity. }
  split; [|split; [|split; [|split; [|split]]]].
  - eapply retrying_stays_on_base;
      [apply uploadDocument_requests | apply endpoint_on_base | apply endpoint_on_base].
  - eapply retrying_stays_on_base;
      [apply sendChatMessage_requests | apply endpoint_on_base | apply endpoint_on_base].
  - eapply retrying_stays_on_base;
      [apply listDocuments_requests | apply endpoint_on_base | apply endpoint_on_base].
  - eapply single_stays_on_base; [apply deleteDocument_requests | apply endpoint_on_base].
  - eapply single_stays_on_base; [apply getStats_requests | apply endpoint_on_base].
  - intros w. exists [get_request (API_BASE_URL P +:+ "/health")]. split.
    + unfold healthCheck, catch, bind, fetch. simpl.
      destruct (backend _ (server w)) as [[reason|r] s1]; reflexivity.
    + repeat constructor. apply prefix_append.
Qed.

(** X8. Once [next.config.js] has fixed the variable at build time the
    client never falls back to its own default: the base URL is the variable
    of the environment when that is set and not empty, and
    'http://backend-service:8000' otherwise. *)
Theorem built_base_url (environment : option string) :
  let base := API_BASE_URL (NextConfig.built P environment) in
  base = NextConfig.env_NEXT_PUBLIC_API_URL environment
  /\ (forall url, environment = Some url -> url <> "" -> base = url)
  /\ (environment = None \/ environment = Some "" -> base = "http://backend-service:8000").
Proof.
  intros base. subst base. unfold API_BASE_URL, NextConfig.built. simpl.
  assert (Hset : Js.truthy_string (NextConfig.env_NEXT_PUBLIC_API_URL environment) = true).
  { destruct environment as [[|c r]|]; reflexivity. }
  rewrite Hset. split; [reflexivity|]. split.
  - intros url -> Hne. simpl. apply truthy_string_nonempty in Hne. rewrite Hne. reflexivity.
  - intros [-> | ->]; reflexivity.
Qed.

End BaseUrl.

(* ===================================================================== *)
(** * Further results on the chat page *)
(* ===================================================================== *)

Lemma append_to_last_snoc (chunk : js_value) (prev : list Message) (m : Message) :
  Page.append_to_last chunk (prev ++ [m])
  = prev ++ [match role m with
             | assistant => {| role := assistant; content := content m +:+ String_of chunk |}
             | user => m
             end].
Proof.
  induction prev as [|m0 rest IH].
  - simpl. destruct (role m); reflexivity.
  - change ((m0 :: rest) ++ [m]) with (m0 :: (rest ++ [m])).
    destruct (rest ++ [m]) as [|m1 rest'] eqn:E.
    + destruct rest; discriminate E.
    + change (Page.append_to_last chunk (m0 :: m1 :: rest'))
        with (m0 :: Page.append_to_last chunk (m1 :: rest')).
      rewrite IH. reflexivity.
Qed.

(** X9. The streaming callback of the page changes the last message only,
    and only when it is a message of the assistant: the number of messages,
    their roles and every message but the last stay as they were, and a
    conversation that ends with a user message is left untouched. *)
Theorem append_to_last_shape (chunk : js_value) (prev : list Message) :
  length (Page.append_to_last chunk prev) = length prev
  /\ map role (Page.append_to_last chunk prev) = map role prev
  /\ removelast (Page.append_to_last chunk prev) = removelast prev
  /\ (forall earlier m, prev = earlier ++ [m] -> role m = user ->
        Page.append_to_last chunk prev = prev)
  /\ (forall earlier m, prev = earlier ++ [m] -> role m = assistant ->
        Page.append_to_last chunk prev
        = earlier ++ [{| role := assistant; content := content m +:+ String_of chunk |}]).
Proof.
  induction prev as [|m before _] using rev_ind.
  - repeat split; try reflexivity; intros earlier m H; destruct earlier; discriminate H.
  - rewrite append_to_last_snoc.
    split; [rewrite !length_app; reflexivity|].
    split; [rewrite !map_app; simpl; destruct (role m) eqn:E; simpl; rewrite ?E; reflexivity|].
    split; [rewrite !removelast_last; reflexivity|].
    split; intros earlier m' Heq Hrole; apply app_inj_tail in Heq as [-> ->];
      rewrite Hrole; reflexivity.
Qed.

Lemma shown_snoc (objects : list Message) (earlier : list nat) (address : nat) (m : Message) :
  objects !! address = Some m ->
  Page.shown objects (earlier ++ [address]) = Page.shown objects earlier ++ [m].
Proof.
  intros Hm. unfold Page.shown. rewrite omap_app. simpl. rewrite Hm. reflexivity.
Qed.

Lemma shown_elsewhere (objects : list Message) (array : list nat) (address : nat) (m : Message) :
  address ∉ array ->
  Page.shown (<[address := m]> objects) array = Page.shown objects array.
Proof.
  unfold Page.shown. induction array as [|a rest IH]; intros Hfresh; [reflexivity|].
  apply not_elem_of_cons in Hfresh as [Hne Hrest].
  change (a :: rest) with ([a] ++ rest). rewrite !omap_app, (IH Hrest). f_equal.
  change (omap (fun address0 => <[address := m]> objects !! address0) [a])
    with (match <[address := m]> objects !! a with Some y => [y] | None => [] end).
  rewrite list_lookup_insert_ne by exact Hne. reflexivity.
Qed.

(** One run of the updater on the objects is [Page.append_to_last] on the
    messages shown. *)
Lemma update_last_once (chunk : js_value) (earlier : list nat) (address : nat)
    (objects : list Message) :
  address ∉ earlier -> (address < length objects)%nat ->
  exists objects',
    Page.update_last chunk (earlier ++ [address]) objects = inr (earlier ++ [address], objects')
    /\ length objects' = length objects
    /\ Page.shown objects' (earlier ++ [address])
       = Page.append_to_last chunk (Page.shown objects (earlier ++ [address])).
Proof.
  intros Hfresh Hbound. unfold Page.update_last. rewrite last_snoc.
  destruct (lookup_lt_is_Some_2 objects address Hbound) as [m Hm]. rewrite Hm.
  rewrite (shown_snoc objects earlier address m Hm), append_to_last_snoc.
  destruct (role m) eqn:Hrole.
  - exists objects. split; [reflexivity|]. split; [reflexivity|].
    apply shown_snoc, Hm.
  - eexists. split; [reflexivity|]. split; [apply length_insert|].
    rewrite (shown_snoc _ earlier address
               {| role := assistant; content := content m +:+ String_of chunk |})
      by (apply list_lookup_insert_eq, Hbound).
    rewrite shown_elsewhere by exact Hfresh. reflexivity.
Qed.

(** X21. The streaming updater changes the last message in place, on the
    object the previous array holds too.  On an array that is not empty and
    holds each object once, one run of the updater shows what
    [Page.append_to_last] computes; every rerun on the same previous array,
    as StrictMode makes in development, appends the chunk once more to the
    same message.  On the empty array the updater raises. *)
Theorem update_last_shared (chunk : js_value) (prev : list nat) (objects : list Message) :
  NoDup prev -> Forall (fun address => (address < length objects)%nat) prev ->
  match prev with
  | [] =>
      Page.update_last chunk prev objects
      = inl (TypeError "Cannot read properties of undefined (reading 'role')")
  | _ :: _ =>
      forall reruns, exists objects',
        Page.run_updater reruns (Page.update_last chunk) prev objects = inr (prev, objects')
        /\ Page.shown objects' prev
           = Nat.iter (S reruns) (Page.append_to_last chunk) (Page.shown objects prev)
  end.
Proof.
  intros Hdistinct Hbound.
  destruct prev as [|address earlier _] using rev_ind; [reflexivity|].
  assert (Hgoal : forall reruns, exists objects',
            Page.run_updater reruns (Page.update_last chunk) (earlier ++ [address]) objects
            = inr (earlier ++ [address], objects')
            /\ Page.shown objects' (earlier ++ [address])
               = Nat.iter (S reruns) (Page.append_to_last chunk)
                   (Page.shown objects (earlier ++ [address]))).
  { apply NoDup_app in Hdistinct as (_ & Hfresh & _).
    assert (Hlast : address ∉ earlier)
      by (intros Hin; apply (Hfresh address Hin); left).
    rewrite Forall_app, Forall_singleton in Hbound. destruct Hbound as [_ Hbound].
    intros reruns. revert objects Hbound.
    induction reruns as [|fewer IH]; intros objects Hbound.
    - destruct (update_last_once chunk earlier address objects Hlast Hbound)
        as (objects' & Hrun & _ & Hshown).
      exists objects'. simpl. rewrite Hrun. auto.
    - destruct (update_last_once chunk earlier address objects Hlast Hbound)
        as (objects1 & Hrun & Hlength & Hshown).
      destruct (IH objects1 ltac:(rewrite Hlength; exact Hbound))
        as (objects' & Hrest & Hafter).
      exists objects'. split.
      + change (Page.run_updater (S fewer) (Page.update_last chunk)
                  (earlier ++ [address]) objects)
          with (match Page.update_last chunk (earlier ++ [address]) objects with
                | inl e => inl e
                | inr (_, o) =>
                    Page.run_updater fewer (Page.update_last chunk) (earlier ++ [address]) o
                end).
        rewrite Hrun. exact Hrest.
      + rewrite Hafter, Hshown. rewrite <- Nat.iter_succ_r. reflexivity. }
  destruct (earlier ++ [address]) as [|a0 rest0] eqn:Hprev.
  - destruct earlier; discriminate Hprev.
  - exact Hgoal.
Qed.

(** The theorem at the page of the examples while the first fragment comes
    in, the question and the placeholder being two objects: after one rerun
    the fragment shows twice. *)
Lemma update_last_shared_example :
  let objects := [{| role := user; content := "What is this document about?" |};
                  {| role := assistant; content := "" |}] in
  exists objects',
    Page.run_updater 1 (Page.update_last (Some (JStr "Based on"))) [0; 1]%nat objects
    = inr ([0; 1]%nat, objects')
    /\ Page.shown objects' [0; 1]%nat
       = [{| role := user; content := "What is this document about?" |};
          {| role := assistant; content := "Based onBased on" |}].
Proof.
  intros objects.
  destruct (update_last_shared (Some (JStr "Based on")) [0; 1]%nat objects
              ltac:(apply (bool_decide_unpack _); vm_compute; exact I)
              ltac:(repeat constructor; simpl; lia) 1%nat)
    as (objects' & Hrun & Hshown).
  exists objects'. split; [exact Hrun|]. rewrite Hshown. reflexivity.
Defined.

Section PageEnds.

Context (P : Platform) {St : Type} (backend : Request -> St -> FetchResult * St).

Lemma the_chat_requests (reruns : nat) (w : World St Page.State) :
  sent (snd (Page.the_chat_under P backend reruns w))
  = sent w ++ attempts backend (server w)
                (chat_request P API_VERSION (Js.trim (Page.input (caller w)))
                   (Page.messages (caller w)))
                (chat_request P LEGACY_API (Js.trim (Page.input (caller w)))
                   (Page.messages (caller w))).
Proof.
  unfold Page.the_chat_under.
  rewrite (retries_attempts backend _ _ _
             (sendChatMessage_requests P backend (Page.onContent_under reruns)
                Page.onSources _ _)).
  reflexivity.
Qed.

Lemma handleSubmit_world (reruns : nat) (w : World St Page.State) :
  Js.trim (Page.input (caller w)) <> "" -> Page.isLoading (caller w) = false ->
  fst (Page.handleSubmit_under P backend reruns w) = Resolved tt
  /\ sent (snd (Page.handleSubmit_under P backend reruns w))
     = sent (snd (Page.the_chat_under P backend reruns w))
  /\ server (snd (Page.handleSubmit_under P backend reruns w))
     = server (snd (Page.the_chat_under P backend reruns w)).
Proof.
  intros Hne Hidle. rewrite handleSubmit_run_under by assumption.
  destruct (Page.the_chat_under P backend reruns w) as [[[]|err] w2]; simpl; auto.
Qed.

(** X10. When [handleSubmit] goes ahead, the request it sends carries the
    trimmed input as the message and, as history, the last 10 of the messages
    the conversation had before: neither the question being asked nor the
    assistant placeholder is in the history.  The legacy request, when there
    is one, carries the same.  This does not depend on how many times React
    reruns the updaters ([reruns] is 0 in a production build). *)
Theorem handleSubmit_sends_question (reruns : nat) (w : World St Page.State) :
  Js.trim (Page.input (caller w)) <> "" -> Page.isLoading (caller w) = false ->
  let question := Js.trim (Page.input (caller w)) in
  let earlier := Page.messages (caller w) in
  let requests := attempts backend (server w)
                    (chat_request P API_VERSION question earlier)
                    (chat_request P LEGACY_API question earlier) in
  sent (snd (Page.handleSubmit_under P backend reruns w)) = sent w ++ requests
  /\ requests <> []
  /\ Forall (fun request =>
               req_body request
               = TextBody (JSON_stringify P
                             (chat_payload question (Js.slice_last 10 earlier))))
            requests.
Proof.
  intros Hne Hidle question earlier requests.
  destruct (handleSubmit_world reruns w Hne Hidle) as (_ & -> & _).
  rewrite the_chat_requests. fold question earlier requests.
  split; [reflexivity|].
  destruct (attempts_cases backend (server w)
              (chat_request P API_VERSION question earlier)
              (chat_request P LEGACY_API question earlier)) as [E|E];
    unfold requests; rewrite E; split; try discriminate; repeat constructor.
Qed.

(** The no-break space at the page: an input of one no-break space is white
    space only and [handleSubmit] does nothing; around a word it is trimmed
    off the message that is sent and shown. *)
Example handleSubmit_no_break_space :
  let nbsp := String (ascii_of_nat 160) "" in
  let typed text :=
    Demo.start tt
      {| Page.messages := []; Page.input := text; Page.isLoading := false;
         Page.error := None; Page.sources := Some (JArr []); Page.showUpload := false |} in
  let unreachable := Demo.always (NetworkFailure "Failed to fetch") in
  Page.handleSubmit Demo.events_platform unreachable (typed nbsp)
  = (Resolved tt, typed nbsp)
  /\ sent (snd (Page.handleSubmit Demo.events_platform unreachable
                  (typed (" hi" +:+ nbsp))))
     = [chat_request Demo.events_platform API_VERSION "hi" []]
  /\ Page.messages (caller (snd (Page.handleSubmit Demo.events_platform unreachable
                                   (typed (" hi" +:+ nbsp)))))
     = [{| role := user; content := "hi" |}].
Proof. vm_compute. auto. Qed.

(** X11. [handleSubmit] never rejects, whatever the backend does, and it
    never touches the upload panel; when it goes ahead it leaves the input
    empty. *)
Theorem handleSubmit_never_rejects (w : World St Page.State) :
  let run := Page.handleSubmit P backend w in
  fst run = Resolved tt
  /\ Page.showUpload (caller (snd run)) = Page.showUpload (caller w)
  /\ (Js.trim (Page.input (caller w)) <> "" /\ Page.isLoading (caller w) = false ->
      Page.input (caller (snd run)) = "").
Proof.
  intros run. subst run.
  destruct (string_dec (Js.trim (Page.input (caller w))) "") as [Hempty|Hne];
    [rewrite handleSubmit_guarded by (left; exact Hempty);
     repeat split; intros [H _]; contradiction|].
  destruct (Page.isLoading (caller w)) eqn:Hbusy;
    [rewrite handleSubmit_guarded by (right; exact Hbusy);
     repeat split; intros [_ H]; discriminate|].
  rewrite handleSubmit_run by assumption.
  pose proof (sendChatMessage_keeps P backend Page.onContent Page.onSources
                (fun s => Page.showUpload s = Page.showUpload (caller w)
                          /\ Page.input s = "")
                (fun chunk u H => H) (fun names u H => H)
                (Js.trim (Page.input (caller w))) (Page.messages (caller w))
                (Page.in_flight w) (conj eq_refl eq_refl)) as [Hpanel Hinput].
  fold (Page.the_chat P backend w) in Hpanel, Hinput.
  destruct (Page.the_chat P backend w) as [[[]|err] w2]; simpl in *; auto.
Qed.






(** X13. When the response is not ok, [handleSubmit] shows the message of
    the error made from the body, keeps the question in the conversation and
    removes the assistant placeholder, together with every earlier message
    whose content is empty.  No callback has run, so this does not depend on
    how many times React reruns the updaters. *)
Theorem handleSubmit_refused (reruns : nat) (w : World St Page.State) (r : Response) :
  Js.trim (Page.input (caller w)) <> "" -> Page.isLoading (caller w) = false ->
  final_response backend (server w)
    (chat_request P API_VERSION (Js.trim (Page.input (caller w))) (Page.messages (caller w)))
    (chat_request P LEGACY_API (Js.trim (Page.input (caller w))) (Page.messages (caller w)))
  = Some r ->
  ok r = false ->
  caller (snd (Page.handleSubmit_under P backend reruns w))
  = refused (caller w)
      (message_of (api_error P r "Chat failed" "Failed to get response")).
Proof.
  intros Hne Hidle Hfinal Hbad.
  rewrite handleSubmit_run_under by assumption.
  pose proof (sendChatMessage_end P backend (Page.onContent_under reruns) Page.onSources
                (Js.trim (Page.input (caller w))) (Page.messages (caller w))
                (Page.in_flight w)) as Hend.
  cbv zeta in Hend. change (server (Page.in_flight w)) with (server w) in Hend.
  rewrite Hfinal, Hbad in Hend. destruct Hend as [Hout Hcaller].
  fold (Page.the_chat_under P backend reruns w) in Hout, Hcaller.
  destruct (Page.the_chat_under P backend reruns w) as [[[]|err] w2]; simpl in *;
    [discriminate|].
  injection Hout as ->. rewrite Hcaller.
  unfold refused, Page.setIsLoading, Page.setMessages, Page.setError, Page.pending,
    Page.drop_empty. simpl.
  rewrite List.filter_app. simpl.
  apply truthy_string_nonempty in Hne. rewrite Hne. reflexivity.
Qed.

End PageEnds.

(** X14. While a request is in flight the page tells exactly one bubble that
    it is streaming, the last one, which is the assistant placeholder and
    shows the loading dots; when the page is not loading it tells none.  A
    bubble shows the dots only for an assistant message that is empty and
    streaming, the cursor only next to the rendered text of an assistant
    message that is streaming, and neither for a user message. *)
Theorem streaming_indicators (s : Page.State) :
  let shown := Page.pending s in
  let last := S (length (Page.messages s)) in
  (forall index, Page.isStreaming shown index = true <-> index = last)
  /\ nth_error (Page.messages shown) last = Some {| role := assistant; content := "" |}
  /\ (forall state index, Page.isLoading state = false ->
        Page.isStreaming state index = false)
  /\ (forall m streaming,
        ChatMessage.body_of m streaming = ChatMessage.LoadingDots
        <-> role m = assistant /\ content m = "" /\ streaming = true)
  /\ (forall m streaming,
        ChatMessage.cursor m streaming = true
        <-> role m = assistant /\ content m <> "" /\ streaming = true)
  /\ (forall m streaming,
        ChatMessage.cursor m streaming = true ->
        ChatMessage.body_of m streaming = ChatMessage.Markdown (content m))
  /\ (forall m streaming, role m = user ->
        ChatMessage.body_of m streaming = ChatMessage.PlainText (content m)
        /\ ChatMessage.cursor m streaming = false).
Proof.
  intros shown last. split; [|split; [|split; [|split; [|split; [|split]]]]].
  - intros index. unfold Page.isStreaming, shown, Page.pending. simpl.
    rewrite length_app. simpl. unfold last. rewrite Z.eqb_eq. lia.
  - unfold shown, Page.pending, last. cbn [Page.messages].
    rewrite nth_error_app2 by lia.
    replace (S (length (Page.messages s)) - length (Page.messages s))%nat with 1%nat by lia.
    reflexivity.
  - intros state index Hidle. unfold Page.isStreaming. rewrite Hidle. reflexivity.
  - intros [[] [|c r]] []; unfold ChatMessage.body_of; simpl; split;
      try discriminate; try (intros (H1 & H2 & H3); discriminate); auto.
  - intros [[] [|c r]] []; unfold ChatMessage.cursor; simpl; split;
      try discriminate; try (intros (H1 & H2 & H3); congruence);
      try (intros _; repeat split; congruence).
  - intros [[] [|c r]] []; unfold ChatMessage.cursor, ChatMessage.body_of; simpl;
      try discriminate; reflexivity.
  - intros [[] text] streaming; simpl; [|discriminate]. intros _.
    unfold ChatMessage.body_of, ChatMessage.cursor. simpl. auto.
Qed.

(* ===================================================================== *)
(** * Further results on the upload widget *)
(* ===================================================================== *)


Section WidgetEnds.

Context (P : Platform) {St : Type} (backend : Request -> St -> FetchResult * St).








End WidgetEnds.

(* ===================================================================== *)
(** * Results on the names of the Helm chart *)
(* ===================================================================== *)

Section HelmFacts.

Local Open Scope nat_scope.

Lemma length_append (a b : string) :
  String.length (a +:+ b) = String.length a + String.length b.
Proof.
  induction a as [|c a' IH]; [reflexivity|]. rewrite append_cons. simpl. rewrite IH. reflexivity.
Qed.

Lemma substring_length (n : nat) (s : string) : String.length (String.substring 0 n s) <= n.
Proof.
  revert n. induction s as [|c r IH]; intros [|n]; simpl; try lia.
  specialize (IH n). lia.
Qed.

Lemma substring_append (a b : string) (k : nat) :
  String.substring 0 (String.length a + k) (a +:+ b) = a +:+ String.substring 0 k b.
Proof.
  induction a as [|c a' IH]; [reflexivity|].
  rewrite !append_cons. simpl. rewrite IH. reflexivity.
Qed.

Lemma trunc_length (n : nat) (s : string) : String.length (Helm.trunc n s) <= n.
Proof.
  unfold Helm.trunc. destruct (n <? String.length s) eqn:E.
  - apply substring_length.
  - apply Nat.ltb_ge in E. exact E.
Qed.

Lemma trimSuffix_length (s : string) :
  String.length (Helm.trimSuffix_hyphen s) <= String.length s.
Proof.
  induction s as [|c r IH]; [reflexivity|]. destruct r as [|d r'].
  - simpl. destruct (Ascii.eqb c "-"); simpl; lia.
  - change (Helm.trimSuffix_hyphen (String c (String d r')))
      with (String c (Helm.trimSuffix_hyphen (String d r'))).
    simpl String.length in *. lia.
Qed.

Lemma dns_label_length (s : string) : String.length (Helm.dns_label s) <= 63.
Proof.
  unfold Helm.dns_label.
  pose proof (trimSuffix_length (Helm.trunc 63 s)). pose proof (trunc_length 63 s). lia.
Qed.

Lemma trimSuffix_append (s t : string) :
  t <> "" -> Helm.trimSuffix_hyphen (s +:+ t) = s +:+ Helm.trimSuffix_hyphen t.
Proof.
  intros Ht. induction s as [|c s' IH]; [reflexivity|].
  rewrite !append_cons. destruct (s' +:+ t) as [|d r] eqn:E.
  - destruct s'; [rewrite append_nil in E; contradiction | discriminate E].
  - change (Helm.trimSuffix_hyphen (String c (String d r)))
      with (String c (Helm.trimSuffix_hyphen (String d r))).
    rewrite IH. reflexivity.
Qed.

Lemma fullname_length (c : Helm.Context) : String.length (Helm.fullname c) <= 63.
Proof.
  unfold Helm.fullname. destruct (Js.truthy_string _); [apply dns_label_length|].
  destruct (Helm.contains _ _); apply dns_label_length.
Qed.

(** X17. Every name the helpers of the chart produce for a resource fits a
    DNS label: the name, the full name, the chart label and the full names of
    the backend, the frontend and the database have at most 63 characters,
    whatever the release, the chart and the overrides. *)
Theorem helm_names_fit (c : Helm.Context) :
  String.length (Helm.name c) <= 63
  /\ String.length (Helm.fullname c) <= 63
  /\ String.length (Helm.chart c) <= 63
  /\ String.length (Helm.backend_fullname c) <= 63
  /\ String.length (Helm.frontend_fullname c) <= 63
  /\ String.length (Helm.postgresql_fullname c) <= 63.
Proof.
  repeat split; try apply dns_label_length. apply fullname_length.
Qed.

Lemma component_short (full suffix : string) :
  String.length full + String.length suffix <= 63 ->
  suffix <> "" -> Helm.trimSuffix_hyphen suffix = suffix ->
  Helm.dns_label (full +:+ suffix) = full +:+ suffix.
Proof.
  intros Hfits Hne Hkeep. unfold Helm.dns_label, Helm.trunc.
  replace (63 <? String.length (full +:+ suffix)) with false
    by (symmetry; apply Nat.ltb_ge; rewrite length_append; exact Hfits).
  rewrite trimSuffix_append by exact Hne. rewrite Hkeep. reflexivity.
Qed.

Lemma component_long (full suffix : string) :
  62 <= String.length full <= 63 ->
  String.substring 0 1 suffix = "-" -> 2 <= String.length suffix ->
  Helm.dns_label (full +:+ suffix)
  = if String.length full =? 62 then full else Helm.trimSuffix_hyphen full.
Proof.
  intros Hlen Hdash Hsuffix. unfold Helm.dns_label, Helm.trunc.
  replace (63 <? String.length (full +:+ suffix)) with true
    by (symmetry; apply Nat.ltb_lt; rewrite length_append; lia).
  destruct (String.length full =? 62) eqn:E.
  - apply Nat.eqb_eq in E. replace 63 with (String.length full + 1) by lia.
    rewrite substring_append, Hdash, trimSuffix_append by discriminate.
    simpl. apply append_empty.
  - apply Nat.eqb_neq in E. replace 63 with (String.length full + 0) by lia.
    rewrite substring_append.
    replace (String.substring 0 0 suffix) with "" by (destruct suffix; reflexivity).
    rewrite append_empty. reflexivity.
Qed.

(** X18. The full names of the three components are the full name of the
    release with the suffixes -backend, -frontend and -postgresql as long as
    the full name has at most 52 characters.  When the full name has 62 or 63
    characters the truncation at 63 removes the suffixes altogether and the
    three components get one and the same name. *)
Theorem helm_component_names (c : Helm.Context) :
  (String.length (Helm.fullname c) <= 52 ->
     Helm.backend_fullname c = Helm.fullname c +:+ "-backend"
     /\ Helm.frontend_fullname c = Helm.fullname c +:+ "-frontend"
     /\ Helm.postgresql_fullname c = Helm.fullname c +:+ "-postgresql")
  /\ (62 <= String.length (Helm.fullname c) ->
        Helm.backend_fullname c = Helm.frontend_fullname c
        /\ Helm.frontend_fullname c = Helm.postgresql_fullname c).
Proof.
  split.
  - intros Hshort. unfold Helm.backend_fullname, Helm.frontend_fullname,
      Helm.postgresql_fullname.
    repeat split; apply component_short; simpl; try lia; try discriminate; reflexivity.
  - intros Hlong. pose proof (fullname_length c) as Hmax.
    unfold Helm.backend_fullname, Helm.frontend_fullname, Helm.postgresql_fullname.
    rewrite !component_long by (simpl; first [lia | reflexivity]).
    split; reflexivity.
Qed.

(** A release whose name has 62 characters and contains the name of the
    chart: the three components are all named as the release. *)
Example helm_names_collide :
  let c := {| Helm.Chart_Name := "rag-stack"; Helm.Chart_Version := "1.0.0";
              Helm.Release_Name :=
                "rag-stack-" +:+ String.concat "" (repeat "x" 52);
              Helm.Values_nameOverride := ""; Helm.Values_fullnameOverride := "";
              Helm.Values_serviceAccount_create := true;
              Helm.Values_serviceAccount_name := "";
              Helm.Values_postgresPassword := "secret";
              Helm.Values_database := "ragdb" |} in
  String.length (Helm.fullname c) = 62
  /\ Helm.backend_fullname c = Helm.Release_Name c
  /\ Helm.frontend_fullname c = Helm.Release_Name c
  /\ Helm.postgresql_fullname c = Helm.Release_Name c.
Proof. vm_compute. auto. Qed.

End HelmFacts.

(* ===================================================================== *)
(** * The further results at the examples *)
(* ===================================================================== *)

(** X19. The stream consumer does not look for the done event: a stream of
    whole frames ends the same way, with the same callbacks run, whether the
    done event closes it or not. *)
Theorem done_event_changes_nothing
    (P : Platform) (encode : json -> string) {St U : Type}
    (onContent onSources : js_value -> U -> U)
    (groups : list (list Answer.Event)) (final : StreamEnd) (w : World St U) :
  Answer.well_framed P encode Answer.Done ->
  read_loop P onContent onSources
    (Answer.deliver_whole encode (groups ++ [[Answer.Done]])) final w
  = read_loop P onContent onSources (Answer.deliver_whole encode groups) final w.
Proof.
  intros Hdone. rewrite !read_loop_run. f_equal. f_equal.
  unfold Answer.deliver_whole. rewrite map_app, fold_left_app. simpl.
  rewrite (handle_chunk_events P encode onContent onSources [Answer.Done])
    by (constructor; [exact Hdone | constructor]).
  reflexivity.
Qed.

Lemma done_event_changes_nothing_example :
  read_loop (U:=list Answer.Callback) (St:=unit) Demo.events_platform
    Answer.record_content Answer.record_sources
    (Answer.deliver_whole Demo.stringify
       ([[Answer.Sources ["doc1.pdf"]; Answer.Content "Based on"]] ++ [[Answer.Done]]))
    EndOfStream (Demo.start tt [])
  = read_loop Demo.events_platform Answer.record_content Answer.record_sources
      (Answer.deliver_whole Demo.stringify
         [[Answer.Sources ["doc1.pdf"]; Answer.Content "Based on"]])
      EndOfStream (Demo.start tt []).
Proof.
  apply (done_event_changes_nothing Demo.events_platform Demo.stringify).
  split; reflexivity.
Defined.

Lemma listDocuments_ends_example :
  fst (listDocuments (Demo.platform [Demo.listing])
         (Demo.always (Demo.streaming [Demo.stringify Demo.listing] EndOfStream))
         (Demo.start tt tt))
  = Resolved (Some (JArr [])).
Proof.
  destruct (listDocuments_ends (Demo.platform [Demo.listing])
              (Demo.always (Demo.streaming [Demo.stringify Demo.listing] EndOfStream))
              (Demo.start tt tt)
              {| status := 200; body := Demo.closed [Demo.stringify Demo.listing] |}
              eq_refl) as [Hok _].
  destruct (Hok eq_refl) as [Hobject _].
  exact (Hobject [("documents", JArr []); ("total", JNum 0)] eq_refl).
Defined.

Lemma sendChatMessage_keeps_partial_answer_example :
  let backend := Demo.legacy_only
                   (Demo.streaming Demo.first_frames (ConnectionLost "network error")) in
  let run := sendChatMessage Demo.events_platform backend
               Answer.record_content Answer.record_sources
               "What is this document about?" [] (Demo.start tt []) in
  map req_url (sent (snd run))
  = ["http://localhost:8000/api/v1/chat"; "http://localhost:8000/api/chat"]
  /\ fst run = Rejected (TypeError "network error")
  /\ caller (snd run)
     = [Answer.SawSources (Some (JArr [JStr "doc1.pdf"; JStr "doc2.pdf"]));
        Answer.SawContent (Some (JStr "Based on"))].
Proof.
  intros backend run. split; [reflexivity|].
  destruct (sendChatMessage_keeps_partial_answer Demo.events_platform backend
              Answer.record_content Answer.record_sources
              "What is this document about?" [] (Demo.start tt [])
              {| status := 200;
                 body := Some {| chunks := Demo.first_frames;
                                 ending := ConnectionLost "network error" |} |}
              Demo.first_frames "network error" eq_refl eq_refl eq_refl)
    as (Hout & Hcaller & _).
  split; [exact Hout|]. fold run in Hcaller. rewrite Hcaller. reflexivity.
Defined.

Lemma handleSubmit_sends_question_example :
  sent (snd (Page.handleSubmit Demo.events_platform
               (Demo.always (NetworkFailure "Failed to fetch")) (Demo.start tt Demo.asking)))
  = [chat_request Demo.events_platform API_VERSION "What is this document about?" []].
Proof.
  destruct (handleSubmit_sends_question Demo.events_platform
              (Demo.always (NetworkFailure "Failed to fetch")) 0 (Demo.start tt Demo.asking)
              ltac:(discriminate) eq_refl) as [Hsent _].
  exact Hsent.
Defined.


Lemma handleSubmit_refused_example :
  caller (snd (Page.handleSubmit (Demo.platform [Demo.unavailable])
                 (Demo.always (Responded Demo.overloaded)) (Demo.start tt Demo.asking)))
  = {| Page.messages := [{| role := user; content := "What is this document about?" |}];
       Page.input := ""; Page.isLoading := false;
       Page.error := Some "Embedding provider unavailable";
       Page.sources := Some (JArr []); Page.showUpload := false |}.
Proof.
  refine (handleSubmit_refused (Demo.platform [Demo.unavailable])
            (Demo.always (Responded Demo.overloaded)) 0 (Demo.start tt Demo.asking)
            Demo.overloaded _ _ _ _).
  - discriminate.
  - reflexivity.
  - reflexivity.
  - reflexivity.
Defined.


(** A response that is ok with the body [null]: [uploadDocument] resolves to
    [null], the updater raises on [result.message], and the entry of the
    file stays uploading. *)
Example processFile_null_result :
  let served := Demo.always (Demo.streaming ["null"] EndOfStream) in
  let run := FileUpload.processFile (Demo.platform [JNull]) served Demo.paper
               (Demo.start tt []) in
  fst (uploadDocument (Demo.platform [JNull]) served Demo.paper (Demo.start tt tt))
  = Resolved JNull
  /\ FileUpload.succeeded JNull
       {| FileUpload.name := "paper.pdf"; FileUpload.upload_status := FileUpload.uploading;
          FileUpload.message := None; FileUpload.chunks_created := None |}
     = inl (TypeError "Cannot read properties of null (reading 'message')")
  /\ fst run = Resolved tt
  /\ caller (snd run)
     = [{| FileUpload.name := "paper.pdf"; FileUpload.upload_status := FileUpload.uploading;
           FileUpload.message := None; FileUpload.chunks_created := None |}].
Proof. vm_compute. auto. Qed.
